(** * Kraken price tracker: the pair cache, the price fetcher, the sheet
      updater and the scheduler loop of [main.py], embedded and verified.

    Conventions of the embedding.
    - Python [str] values are Rocq strings over the ASCII subset: [py_upper]
      and [py_strip] act on ASCII letters and ASCII white space.
    - Python [float] values are IEEE 754 doubles, [spec_float] at precision
      53; a parsed JSON document is a [json] value whose objects keep their
      keys in insertion order, as Python dicts do.
    - Every call on a collaborator (HTTP provider, worksheet, clock, sleep,
      logger) appends an [event] to the trace of the state; the reply of the
      collaborator is given by a [world], a function of the trace so far. *)

From Stdlib Require Import ZArith String Ascii List Bool Lia.
From Stdlib Require Import Floats.SpecFloat.
From stdpp Require Import base option list gmap strings.

Local Open Scope string_scope.
Local Open Scope Z_scope.
Local Open Scope list_scope.

(** ** Python strings *)

Definition is_ascii_lower (c : ascii) : bool :=
  let n := N_of_ascii c in ((97 <=? n) && (n <=? 122))%N.

Definition upper_char (c : ascii) : ascii :=
  if is_ascii_lower c then ascii_of_N (N_of_ascii c - 32) else c.

(** [s.upper()] *)
Fixpoint py_upper (s : string) : string :=
  match s with
  | EmptyString => EmptyString
  | String c r => String (upper_char c) (py_upper r)
  end.

(** [c.isspace()] on ASCII: TAB, LF, VT, FF, CR, FS, GS, RS, US and SPACE. *)
Definition is_py_space (c : ascii) : bool :=
  let n := N_of_ascii c in
  (((9 <=? n) && (n <=? 13)) || ((28 <=? n) && (n <=? 32)))%N.

Fixpoint lstrip (s : string) : string :=
  match s with
  | EmptyString => EmptyString
  | String c r => if is_py_space c then lstrip r else s
  end.

(** Drops trailing white space: a character is kept when it is not white
    space or when something is kept after it. *)
Fixpoint rstrip (s : string) : string :=
  match s with
  | EmptyString => EmptyString
  | String c r =>
      match rstrip r with
      | EmptyString => if is_py_space c then EmptyString else String c EmptyString
      | r' => String c r'
      end
  end.

(** [s.strip()] *)
Definition py_strip (s : string) : string := rstrip (lstrip s).

(** [s.replace(c, "")] for a one-character [c]: every occurrence goes. *)
Fixpoint remove_char (c : ascii) (s : string) : string :=
  match s with
  | EmptyString => EmptyString
  | String d r => if Ascii.eqb d c then remove_char c r else String d (remove_char c r)
  end.

(** Truth value of a [str]. *)
Definition str_truthy (s : string) : bool :=
  match s with EmptyString => false | _ => true end.

(** ** Python floats *)

Definition prec : Z := 53.
Definition emax : Z := 1024.

Definition float_zero : spec_float := S754_zero false.
Definition float_one : spec_float := SFone prec emax.

Definition float_truthy (f : spec_float) : bool :=
  match f with S754_zero _ => false | _ => true end.

(** [f < z] for a float [f] and an int [z]: Python compares the two exactly. *)
Definition float_lt_int (f : spec_float) (z : Z) : bool :=
  match f with
  | S754_zero _ => 0 <? z
  | S754_infinity s => s
  | S754_nan => false
  | S754_finite s m e =>
      let n := if s then Z.neg m else Z.pos m in
      if 0 <=? e then n * 2 ^ e <? z else n <? z * 2 ^ (- e)
  end.

(** ** Parsed JSON documents *)

#[warnings="-register-all"]
Inductive json : Type :=
| JNull
| JBool (b : bool)
| JInt (z : Z)
| JFloat (f : spec_float)
| JStr (s : string)
| JArr (items : list json)
| JObj (fields : list (string * json)).

(** Lookup in a dict kept as an association list in insertion order. *)
Fixpoint assoc_get {A} (k : string) (kvs : list (string * A)) : option A :=
  match kvs with
  | [] => None
  | (k', v) :: rest => if String.eqb k' k then Some v else assoc_get k rest
  end.

(** Truth value of an object, as [if x:] tests it. *)
Definition py_truthy (v : json) : bool :=
  match v with
  | JNull => false
  | JBool b => b
  | JInt z => negb (z =? 0)
  | JFloat f => float_truthy f
  | JStr s => str_truthy s
  | JArr l => match l with [] => false | _ => true end
  | JObj kvs => match kvs with [] => false | _ => true end
  end.

(** ** Exceptions and results *)

(** The exception classes the program can meet; all derive from
    [Exception]. [RuntimeError] keeps its message prefix and the value
    formatted into it. *)
Inductive exn : Type :=
| RequestException
| HTTPError (status_code : Z)
| JSONDecodeError
| RuntimeError (msg : string) (detail : json)
| KeyError
| AttributeError
| TypeError
| IndexError
| StopIteration
| ValueError
| OverflowError
| GSpreadException.

Inductive result (A : Type) : Type :=
| Ok (a : A)
| Raise (e : exn).
Arguments Ok {A} a.
Arguments Raise {A} e.

Definition result_bind {A B} (r : result A) (f : A -> result B) : result B :=
  match r with
  | Ok a => f a
  | Raise e => Raise e
  end.

#[export] Instance result_ret : MRet result := fun A a => Ok a.
#[export] Instance result_mbind : MBind result := fun A B f r => result_bind r f.

(** ** Dynamic operations on JSON values *)

(** [d.get(k)]: only a dict has [get]. *)
Definition py_get (d : json) (k : string) : result (option json) :=
  match d with
  | JObj kvs => Ok (assoc_get k kvs)
  | _ => Raise AttributeError
  end.

(** [d.get(k, dflt)] *)
Definition py_get_default (d : json) (k : string) (dflt : json) : result json :=
  o ← py_get d k; Ok (default dflt o).

(** [d.items()] *)
Definition py_items (d : json) : result (list (string * json)) :=
  match d with
  | JObj kvs => Ok kvs
  | _ => Raise AttributeError
  end.

(** [l[i]] on a sequence of length [length l]: negative indices count from
    the end. *)
Definition seq_index {A} (l : list A) (i : Z) : result A :=
  let n := Z.of_nat (length l) in
  let j := if i <? 0 then i + n else i in
  if (j <? 0) || (n <=? j) then Raise IndexError
  else match nth_error l (Z.to_nat j) with
       | Some a => Ok a
       | None => Raise IndexError
       end.

Definition chars_of (s : string) : list json :=
  map (fun c => JStr (String c EmptyString)) (list_ascii_of_string s).

(** An index object: an int, or a bool (which is an int in Python). *)
Definition as_index (key : json) : option Z :=
  match key with
  | JInt i => Some i
  | JBool b => Some (if b then 1 else 0)
  | _ => None
  end.

(** [x[key]] *)
Definition py_getitem (x key : json) : result json :=
  match x with
  | JObj kvs =>
      match key with
      | JStr k => match assoc_get k kvs with Some v => Ok v | None => Raise KeyError end
      | JArr _ | JObj _ => Raise TypeError
      | _ => Raise KeyError
      end
  | JArr l =>
      match as_index key with Some i => seq_index l i | None => Raise TypeError end
  | JStr s =>
      match as_index key with Some i => seq_index (chars_of s) i | None => Raise TypeError end
  | _ => Raise TypeError
  end.

(** [next(iter(x))] *)
Definition py_first (x : json) : result json :=
  match x with
  | JObj kvs => match kvs with [] => Raise StopIteration | (k, _) :: _ => Ok (JStr k) end
  | JArr l => match l with [] => Raise StopIteration | v :: _ => Ok v end
  | JStr s => match chars_of s with [] => Raise StopIteration | c :: _ => Ok c end
  | _ => Raise TypeError
  end.

(** [v.replace(c, "")]: only a [str] has [replace]. *)
Definition py_replace (v : json) (c : ascii) : result string :=
  match v with
  | JStr s => Ok (remove_char c s)
  | _ => Raise AttributeError
  end.

(** The double nearest to the integer [z] (ties to even), infinite when
    [z] is out of range. *)
Definition float_of_Z (z : Z) : spec_float := binary_normalize prec emax z 0 false.

(** [float(z)] for an int: round to nearest even, [OverflowError] when the
    int is too large for a double. *)
Definition float_of_int (z : Z) : result spec_float :=
  match float_of_Z z with
  | S754_infinity _ => Raise OverflowError
  | f => Ok f
  end.

(** ** The alias table *)

Definition BASE_ALIASES : gmap string string :=
  list_to_map
    [ ("BTC", "XBT"); ("XBT", "XBT"); ("DOGE", "XDG"); ("XDG", "XDG");
      ("BITCOIN", "XBT"); ("ETHEREUM", "ETH"); ("ETH", "ETH");
      ("ADA", "ADA"); ("CARDANO", "ADA"); ("XRP", "XRP"); ("RIPPLE", "XRP");
      ("SOL", "SOL"); ("SOLANA", "SOL"); ("LTC", "LTC"); ("LITECOIN", "LTC");
      ("BCH", "BCH"); ("BITCOIN CASH", "BCH") ].

Definition KRAKEN_BASE : string := "https://api.kraken.com/0/public".

(** [f"{KRAKEN_BASE}/AssetPairs"] and [f"{KRAKEN_BASE}/Ticker"] *)
Definition AssetPairs_url : string := (KRAKEN_BASE ++ "/AssetPairs")%string.
Definition Ticker_url : string := (KRAKEN_BASE ++ "/Ticker")%string.

(** ** The pair cache *)

Record KrakenPairsCache : Type := {
  _pairs_by_base_quote : gmap (string * string) string;
  _last_refresh : spec_float
}.

(** [KrakenPairsCache.__init__] *)
Definition KrakenPairsCache_init : KrakenPairsCache :=
  {| _pairs_by_base_quote := ∅; _last_refresh := float_zero |}.

(** [meta.get(field, "").replace("X", "").replace("Z", "")] *)
Definition stripped_code (meta : json) (field : string) : result string :=
  v ← py_get_default meta field (JStr "");
  s ← py_replace v "X"%char;
  Ok (remove_char "Z"%char s).

(** The body of the [for pair_name, meta in pairs.items()] loop, on the
    local dict [mapping]. *)
Fixpoint build_loop (items : list (string * json))
    (mapping : gmap (string * string) string)
    : result (gmap (string * string) string) :=
  match items with
  | [] => Ok mapping
  | (pair_name, meta) :: rest =>
      base ← stripped_code meta "base";
      quote ← stripped_code meta "quote";
      build_loop rest
        (if str_truthy base && str_truthy quote
         then <[(base, quote) := pair_name]> mapping
         else mapping)
  end.

(** Lines 79-84 of [refresh_if_needed]: the new mapping from
    [data["result"]]. *)
Definition build_mapping (pairs : json) : result (gmap (string * string) string) :=
  items ← py_items pairs; build_loop items ∅.

(** The [for key in [...]] loop of [find_pair]. *)
Fixpoint first_hit (keys : list (string * string))
    (m : gmap (string * string) string) : option string :=
  match keys with
  | [] => None
  | key :: rest =>
      match m !! key with
      | Some p => Some p
      | None => first_hit rest m
      end
  end.

(** [BASE_ALIASES.get(s, s)] on the upper-cased, stripped input: the symbol
    normalizer. *)
Definition normalize_base (base_input : string) : string :=
  let s := py_strip (py_upper base_input) in
  default s (BASE_ALIASES !! s).

(** [KrakenPairsCache.find_pair] *)
Definition find_pair (self : KrakenPairsCache) (base_input quote : string)
    : option string :=
  let base_norm := normalize_base base_input in
  let quote_norm := py_strip (py_upper quote) in
  match _pairs_by_base_quote self !! (base_norm, quote_norm) with
  | Some p => Some p
  | None =>
      first_hit
        [ (base_norm, quote_norm);
          (remove_char "X"%char base_norm, remove_char "Z"%char quote_norm);
          (py_strip (py_upper base_input), quote_norm) ]
        (_pairs_by_base_quote self)
  end.

(** ** Collaborators: events, worksheet cells, the world *)

Inductive level : Type := INFO | WARNING | ERROR.

Inductive cell_value : Type :=
| VFloat (f : spec_float)
| VStr (s : string).

(** [gspread.Cell(row=..., col=..., value=...)] *)
Record Cell : Type := {
  cell_row : Z;
  cell_col : Z;
  cell_value_of : cell_value
}.

(** One entry per call that leaves the process. *)
Inductive event : Type :=
| EvGet (url : string) (pair : option string) (timeout : Z)
| EvWorksheet (title : string)
| EvColValues (c : Z)
| EvUpdateCells (cells : list Cell)
| EvSleep (secs : Z)
| EvLog (lvl : level) (fmt : string).

(** What [requests.get] hands back: the status line and the body, [None]
    when the body is not JSON. *)
Record response : Type := {
  status_code_of : Z;
  body : option json
}.

(** The environment of one run: the configuration read from [os.getenv],
    the [float] parser of the runtime and the longest sleep its timer can
    represent, and the replies of the clock, the provider and the
    worksheet, each a function of the trace so far. *)
Record world : Type := {
  WORKSHEET_NAME : string;
  QUOTE_CCY_env : string;
  POLL_INTERVAL_SECS : Z;
  ASSET_PAIRS_REFRESH_SECS : Z;
  REQUEST_TIMEOUT : Z;
  float_of_str : string -> option spec_float;
  sleep_limit : Z;
  time_time : list event -> spec_float;
  requests_get : list event -> string -> option string -> result response;
  sh_worksheet : list event -> string -> option exn;
  ws_col_values : list event -> Z -> result (list (option string));
  ws_update_cells : list event -> list Cell -> option exn
}.

(** [QUOTE_CCY = os.getenv("QUOTE_CCY", "USD").upper()] *)
Definition QUOTE_CCY (w : world) : string := py_upper (QUOTE_CCY_env w).

(** ** Program state and its monad *)

Record state : Type := {
  pairs_cache : KrakenPairsCache;
  trace : list event
}.

Definition M (A : Type) : Type := state -> result A * state.

Definition M_ret {A} (a : A) : M A := fun st => (Ok a, st).

Definition M_bind {A B} (m : M A) (f : A -> M B) : M B :=
  fun st =>
    match m st with
    | (Ok a, st') => f a st'
    | (Raise e, st') => (Raise e, st')
    end.

#[export] Instance M_mret : MRet M := @M_ret.
#[export] Instance M_mbind : MBind M := fun A B f m => M_bind m f.

Definition lift {A} (r : result A) : M A := fun st => (r, st).

(** [try: m  except Exception as e: h e] *)
Definition try_except {A} (m : M A) (h : exn -> M A) : M A :=
  fun st =>
    match m st with
    | (Ok a, st') => (Ok a, st')
    | (Raise e, st') => h e st'
    end.

Definition emit (ev : event) : M unit :=
  fun st => (Ok tt, {| pairs_cache := pairs_cache st; trace := trace st ++ [ev] |}).

Definition log (lvl : level) (fmt : string) : M unit := emit (EvLog lvl fmt).

Definition get_cache : M KrakenPairsCache := fun st => (Ok (pairs_cache st), st).

Definition set_cache (c : KrakenPairsCache) : M unit :=
  fun st => (Ok tt, {| pairs_cache := c; trace := trace st |}).

(** A call on a collaborator: the reply is the world's at the trace before
    the call, and the call is recorded whether it returns or raises. *)
Definition call {A} (reply : list event -> result A) (ev : event) : M A :=
  fun st => (reply (trace st),
             {| pairs_cache := pairs_cache st; trace := trace st ++ [ev] |}).

Definition of_option_exn (o : option exn) : result unit :=
  match o with Some e => Raise e | None => Ok tt end.

Definition http_get (w : world) (url : string) (pair : option string) : M response :=
  call (fun tr => requests_get w tr url pair) (EvGet url pair (REQUEST_TIMEOUT w)).

Definition open_worksheet (w : world) (title : string) : M unit :=
  call (fun tr => of_option_exn (sh_worksheet w tr title)) (EvWorksheet title).

Definition col_values (w : world) (c : Z) : M (list (option string)) :=
  call (fun tr => ws_col_values w tr c) (EvColValues c).

Definition update_cells (w : world) (cells : list Cell) : M unit :=
  call (fun tr => of_option_exn (ws_update_cells w tr cells)) (EvUpdateCells cells).

(** [time.sleep(secs)]: a negative length raises [ValueError] and a length
    the timer cannot represent raises [OverflowError], both before any
    sleeping. *)
Definition time_sleep (w : world) (secs : Z) : M unit :=
  if secs <? 0 then lift (Raise ValueError)
  else if sleep_limit w <? secs then lift (Raise OverflowError)
  else emit (EvSleep secs).

(** The lengths [time.sleep] accepts. *)
Definition sleep_accepts (w : world) (secs : Z) : Prop :=
  0 ≤ secs ≤ sleep_limit w.

(** ** HTTP replies *)

(** [r.raise_for_status()] *)
Definition raise_for_status (r : response) : result unit :=
  if (400 <=? status_code_of r) && (status_code_of r <? 600)
  then Raise (HTTPError (status_code_of r))
  else Ok tt.

(** [r.json()] *)
Definition response_json (r : response) : result json :=
  match body r with
  | Some j => Ok j
  | None => Raise JSONDecodeError
  end.

(** [if data.get("error"): raise RuntimeError(msg + str(data["error"]))] *)
Definition check_error (msg : string) (data : json) : result unit :=
  err ← py_get data "error";
  match err with
  | Some v => if py_truthy v then Raise (RuntimeError msg v) else Ok tt
  | None => Ok tt
  end.

(** ** The pair resolver's refresh *)

(** Lines 73-84: from the reply of the catalog endpoint to the new mapping. *)
Definition catalog_mapping (r : response) : result (gmap (string * string) string) :=
  raise_for_status r;;
  data ← response_json r;
  check_error "Kraken AssetPairs error: " data;;
  pairs ← py_getitem data (JStr "result");
  build_mapping pairs.

Definition dict_truthy (m : gmap (string * string) string) : bool :=
  negb (bool_decide (m = ∅)).

(** The early return of line 69. *)
Definition is_fresh (w : world) (self : KrakenPairsCache) (now : spec_float) : bool :=
  float_lt_int (SFsub prec emax now (_last_refresh self)) (ASSET_PAIRS_REFRESH_SECS w)
  && dict_truthy (_pairs_by_base_quote self).

(** [KrakenPairsCache.refresh_if_needed] *)
Definition refresh_if_needed (w : world) : M unit :=
  fun st =>
    let now := time_time w (trace st) in
    if is_fresh w (pairs_cache st) now then (Ok tt, st)
    else
      (log INFO "Refreshing Kraken AssetPairs mapping...";;
       r ← http_get w AssetPairs_url None;
       mapping ← lift (catalog_mapping r);
       set_cache {| _pairs_by_base_quote := mapping; _last_refresh := now |};;
       log INFO "Loaded %d Kraken pairs") st.

(** ** The price fetcher *)

(** [float(v)] *)
Definition py_float (w : world) (v : json) : result spec_float :=
  match v with
  | JStr s => match float_of_str w s with Some f => Ok f | None => Raise ValueError end
  | JInt z => float_of_int z
  | JFloat f => Ok f
  | JBool b => Ok (if b then float_one else float_zero)
  | _ => Raise TypeError
  end.

(** [float(entry["c"][0])], lines 118-119 on the entry picked at line 117. *)
Definition entry_price (w : world) (entry : json) : result spec_float :=
  c ← py_getitem entry (JStr "c");
  last_trade ← py_getitem c (JInt 0);
  py_float w last_trade.

(** Lines 115-119. *)
Definition result_price (w : world) (data : json) : result spec_float :=
  res ← py_getitem data (JStr "result");
  first_key ← py_first res;
  entry ← py_getitem res first_key;
  entry_price w entry.

(** Lines 111-119: from the reply of the ticker endpoint to the price. *)
Definition ticker_price (w : world) (r : response) : result spec_float :=
  raise_for_status r;;
  data ← response_json r;
  check_error "Kraken Ticker error: " data;;
  result_price w data.

(** [get_kraken_last_price] *)
Definition get_kraken_last_price (w : world) (pair_name : string) : M spec_float :=
  r ← http_get w Ticker_url (Some pair_name);
  lift (ticker_price w r).

(** ** The sheet updater *)

Definition start_row : Z := 2.

(** [(raw or "").strip()] *)
Definition symbol_of (raw : option string) : string := py_strip (default "" raw).

(** [not pair_name] *)
Definition pair_missing (pair_name : option string) : bool :=
  match pair_name with
  | Some p => negb (str_truthy p)
  | None => true
  end.

(** The [try] block of lines 143-150. *)
Definition stage_try (w : world) (row : Z) (symbol_str : string)
    (cells_to_update : list Cell) : M (list Cell) :=
  self ← get_cache;
  let pair_name := find_pair self symbol_str (QUOTE_CCY w) in
  value ← (if pair_missing pair_name
           then log WARNING "No Kraken pair for %s-%s (row %d)";; mret (VStr "N/A")
           else price ← get_kraken_last_price w (default "" pair_name);
                mret (VFloat price));
  mret (cells_to_update
          ++ [{| cell_row := row; cell_col := 2; cell_value_of := value |}]).

(** One turn of the [for idx, raw in enumerate(inputs)] loop. *)
Definition stage_row (w : world) (idx : Z) (raw : option string)
    (cells_to_update : list Cell) : M (list Cell) :=
  let row := start_row + idx in
  let symbol_str := symbol_of raw in
  if negb (str_truthy symbol_str) then mret cells_to_update
  else
    try_except (stage_try w row symbol_str cells_to_update)
      (fun _ =>
         log ERROR "Failed to fetch price for %s (row %d)";;
         mret (cells_to_update ++
                 [{| cell_row := row; cell_col := 2; cell_value_of := VStr "ERR" |}])).

(** Lines 137-153, from index [idx] on. *)
Fixpoint stage_rows (w : world) (idx : Z) (inputs : list (option string))
    (cells_to_update : list Cell) : M (list Cell) :=
  match inputs with
  | [] => mret cells_to_update
  | raw :: rest =>
      cells ← stage_row w idx raw cells_to_update;
      stage_rows w (idx + 1) rest cells
  end.

(** [update_sheet_once] *)
Definition update_sheet_once (w : world) : M unit :=
  open_worksheet w (WORKSHEET_NAME w);;
  col ← col_values w 1;
  if (Z.of_nat (length col) <=? 1)
  then log INFO "No tickers found (only header or empty)."
  else
    let inputs := tail col in
    refresh_if_needed w;;
    cells_to_update ← stage_rows w 0 inputs [];
    match cells_to_update with
    | [] => mret tt
    | _ => update_cells w cells_to_update;;
           log INFO "Updated %d price cells."
    end.

(** ** The scheduler loop *)

(** The body of [while True], lines 166-170. *)
Definition iteration (w : world) : M unit :=
  try_except (update_sheet_once w) (fun _ => log ERROR "Run iteration failed");;
  time_sleep w (POLL_INTERVAL_SECS w).

(** The first [n] turns of [while True]: [Ok] when all [n] were completed
    and the loop goes on, [Raise] when an exception left the loop. *)
Fixpoint main_loop (w : world) (n : nat) : M unit :=
  match n with
  | O => mret tt
  | S k => iteration w;; main_loop w k
  end.

Definition init_state : state :=
  {| pairs_cache := KrakenPairsCache_init; trace := [] |}.

(** ** Vocabulary of the statements *)

(** The events a computation adds to the trace. *)
Definition events_of {A} (m : M A) (st : state) : list event :=
  drop (length (trace st)) (trace (snd (m st))).

Definition is_read (ev : event) : bool :=
  match ev with EvColValues _ => true | _ => false end.

Definition is_write (ev : event) : bool :=
  match ev with EvUpdateCells _ => true | _ => false end.

Definition is_sleep (ev : event) : bool :=
  match ev with EvSleep _ => true | _ => false end.

(** Neither the worksheet nor the sleep timer is touched. *)
Definition is_quiet (ev : event) : bool :=
  match ev with EvGet _ _ _ | EvLog _ _ => true | _ => false end.

Definition count_reads (tr : list event) : nat := length (filter is_read tr).
Definition count_writes (tr : list event) : nat := length (filter is_write tr).
Definition sleeps (tr : list event) : list event := filter is_sleep tr.

(** The rows, from index [idx] on, whose symbol is not blank. *)
Fixpoint nonblank_rows (idx : Z) (inputs : list (option string)) : list Z :=
  match inputs with
  | [] => []
  | raw :: rest =>
      if str_truthy (symbol_of raw)
      then (start_row + idx) :: nonblank_rows (idx + 1) rest
      else nonblank_rows (idx + 1) rest
  end.

(** Both stripped codes of a catalog entry. *)
Definition entry_key (meta : json) : result (string * string) :=
  base ← stripped_code meta "base";
  quote ← stripped_code meta "quote";
  Ok (base, quote).

Definition has_key (key : string * string) (meta : json) : bool :=
  match entry_key meta with
  | Ok k => bool_decide (k = key)
  | Raise _ => false
  end.

(** The pair identifier of the last catalog entry that strips to [key]. *)
Fixpoint last_pair_for (key : string * string) (items : list (string * json))
    : option string :=
  match items with
  | [] => None
  | (pair_name, meta) :: rest =>
      match last_pair_for key rest with
      | Some q => Some q
      | None => if has_key key meta then Some pair_name else None
      end
  end.

Definition add_events (st : state) (evs : list event) : state :=
  {| pairs_cache := pairs_cache st; trace := trace st ++ evs |}.

Definition refresh_log : event := EvLog INFO "Refreshing Kraken AssetPairs mapping...".
Definition refresh_get (w : world) : event :=
  EvGet AssetPairs_url None (REQUEST_TIMEOUT w).

(** The reply of the provider to the catalog request of a refresh that
    starts in [st]. *)
Definition catalog_reply (w : world) (st : state) : result response :=
  requests_get w (trace st ++ [refresh_log]) AssetPairs_url None.

Definition ticker_event (w : world) (pair_name : string) : event :=
  EvGet Ticker_url (Some pair_name) (REQUEST_TIMEOUT w).

(** The reply of the provider to a ticker request made in state [st]. *)
Definition ticker_reply (w : world) (st : state) (pair_name : string)
    : result response :=
  requests_get w (trace st) Ticker_url (Some pair_name).

Definition no_pair_log : event := EvLog WARNING "No Kraken pair for %s-%s (row %d)".
Definition fetch_failed_log : event := EvLog ERROR "Failed to fetch price for %s (row %d)".
Definition iteration_failed_log : event := EvLog ERROR "Run iteration failed".

(** The cell staged for the input at index [idx]. *)
Definition output_cell (idx : Z) (v : cell_value) : Cell :=
  {| cell_row := start_row + idx; cell_col := 2; cell_value_of := v |}.

(** The reply of the worksheet to the column read of an invocation that
    starts in [st]. *)
Definition sheet_reply (w : world) (st : state) : result (list (option string)) :=
  ws_col_values w (trace st ++ [EvWorksheet (WORKSHEET_NAME w)]) 1.

Definition quiet (tr : list event) : Prop := forallb is_quiet tr = true.

(** One read per invocation, read without any proviso. *)
Definition reads_once_as_stated : Prop :=
  ∀ w st, count_reads (events_of (update_sheet_once w) st) = 1%nat.

(** The loop completes every number of turns, read without any proviso. *)
Definition never_exits_as_stated : Prop :=
  ∀ w n st, fst (main_loop w n st) = Ok tt.

(** A refresh from state [st] goes to the provider and receives a
    well-formed, error-free catalog whose entries are [items]. *)
Definition ingests (w : world) (st : state) (items : list (string * json)) : Prop :=
  is_fresh w (pairs_cache st) (time_time w (trace st)) = false ∧
  ∃ r data,
    catalog_reply w st = Ok r ∧
    raise_for_status r = Ok tt ∧
    response_json r = Ok data ∧
    check_error "Kraken AssetPairs error: " data = Ok tt ∧
    py_getitem data (JStr "result") = Ok (JObj items).

(** The catalog entry has these base and quote codes. *)
Definition entry_codes (meta : json) (base quote : string) : Prop :=
  py_get meta "base" = Ok (Some (JStr base)) ∧
  py_get meta "quote" = Ok (Some (JStr quote)).

(** Every key of the mapping has a non-empty base and a non-empty quote. *)
Definition keys_nonempty (m : gmap (string * string) string) : Prop :=
  ∀ base quote p, m !! (base, quote) = Some p → base ≠ "" ∧ quote ≠ "".

(** Stripping as the specification words it: only one leading [X] or [Z]
    of a code goes, every other character stays. *)
Definition strip_prefix (s : string) : string :=
  match s with
  | String c r => if Ascii.eqb c "X" || Ascii.eqb c "Z" then r else s
  | EmptyString => EmptyString
  end.

(** ** Example worlds *)

Definition meta_of (base quote : string) : json :=
  JObj [("base", JStr base); ("quote", JStr quote)].

Definition ok_body (res : json) : response :=
  {| status_code_of := 200;
     body := Some (JObj [("error", JArr []); ("result", res)]) |}.

Definition error_body (msg : string) : response :=
  {| status_code_of := 200;
     body := Some (JObj [("error", JArr [JStr msg])]) |}.

Definition demo_catalog : list (string * json) :=
  [ ("XXBTZUSD", meta_of "XXBT" "ZUSD"); ("XETHZUSD", meta_of "XETH" "ZUSD") ].

(** A catalog with the dark-pool twin of the BTC/USD pair. *)
Definition twin_catalog : list (string * json) :=
  [ ("XXBTZUSD", meta_of "XXBT" "ZUSD"); ("XXBTZUSD.d", meta_of "XXBT" "ZUSD") ].

Definition ticker_body (name price : string) : response :=
  ok_body (JObj [(name, JObj [("c", JArr [JStr price; JStr "0.1"])])]).

(** A provider that serves [catalog] and quotes the two demo pairs. *)
Definition demo_get (catalog : list (string * json))
    (tr : list event) (url : string) (pair : option string) : result response :=
  if String.eqb url AssetPairs_url then Ok (ok_body (JObj catalog))
  else match pair with
       | Some "XXBTZUSD" => Ok (ticker_body "XXBTZUSD" "50000")
       | Some "XETHZUSD" => Ok (ticker_body "XETHZUSD" "3000")
       | _ => Ok (error_body "EQuery:Unknown asset pair")
       end.

(** A provider whose ticker endpoint reports an error for every pair. *)
Definition failing_ticker_get
    (tr : list event) (url : string) (pair : option string) : result response :=
  if String.eqb url AssetPairs_url then Ok (ok_body (JObj demo_catalog))
  else Ok (error_body "EService:Unavailable").

(** A provider that cannot be reached. *)
Definition down_get
    (tr : list event) (url : string) (pair : option string) : result response :=
  Raise RequestException.

Fixpoint digits_value (s : string) (acc : Z) : option Z :=
  match s with
  | EmptyString => Some acc
  | String c r =>
      let n := Z.of_N (N_of_ascii c) in
      if (48 <=? n) && (n <=? 57) then digits_value r (10 * acc + (n - 48)) else None
  end.

(** [float] on the strings made of decimal digits only; the example worlds
    quote prices in that form. *)
Definition digits_float (s : string) : option spec_float :=
  match s with
  | EmptyString => None
  | _ => match digits_value s 0 with
         | Some z => Some (float_of_Z z)
         | None => None
         end
  end.

Definition demo_sheet : list (option string) :=
  [Some "Ticker"; Some "BTC"; Some ""; Some "NOPE"; Some "ETH"].

Definition make_world (poll : Z)
    (get : list event -> string -> option string -> result response)
    (worksheet : option exn) (column : list (option string)) : world :=
  {| WORKSHEET_NAME := "tab";
     QUOTE_CCY_env := "USD";
     POLL_INTERVAL_SECS := poll;
     ASSET_PAIRS_REFRESH_SECS := 600;
     REQUEST_TIMEOUT := 15;
     float_of_str := digits_float;
     sleep_limit := 9223372036;
     time_time := fun _ => float_of_Z 1700000000;
     requests_get := get;
     sh_worksheet := fun _ _ => worksheet;
     ws_col_values := fun _ _ => Ok column;
     ws_update_cells := fun _ _ => None |}.

Definition demo_world : world := make_world 60 (demo_get demo_catalog) None demo_sheet.
Definition twin_world : world := make_world 60 (demo_get twin_catalog) None demo_sheet.
Definition failing_ticker_world : world := make_world 60 failing_ticker_get None demo_sheet.
Definition down_world : world := make_world 60 down_get None demo_sheet.
Definition no_worksheet_world : world :=
  make_world 60 (demo_get demo_catalog) (Some GSpreadException) demo_sheet.
Definition negative_poll_world : world :=
  make_world (-1) (demo_get demo_catalog) None demo_sheet.

Definition cache_of (m : gmap (string * string) string) : KrakenPairsCache :=
  {| _pairs_by_base_quote := m; _last_refresh := float_zero |}.

Definition demo_mapping : gmap (string * string) string :=
  {[ ("BT", "USD") := "XXBTZUSD"; ("ETH", "USD") := "XETHZUSD" ]}.

(** A state whose cache was filled by an earlier refresh. *)
Definition warm_state : state :=
  {| pairs_cache := {| _pairs_by_base_quote := demo_mapping;
                       _last_refresh := float_zero |};
     trace := [] |}.

(** The round trip, read with the entry's own identifier as the answer. *)
Definition roundtrip_as_stated : Prop :=
  ∀ w st st' items p meta,
    ingests w st items →
    (p, meta) ∈ items →
    entry_codes meta "XXBT" "ZUSD" →
    refresh_if_needed w st = (Ok tt, st') →
    find_pair (pairs_cache st') "BTC" "USD" = Some p.

(** [c] occurs in [s]. *)
Fixpoint has_char (c : ascii) (s : string) : bool :=
  match s with
  | EmptyString => false
  | String d r => Ascii.eqb d c || has_char c r
  end.

(** ** Vocabulary of the further properties *)

Definition is_fetch (ev : event) : bool :=
  match ev with EvGet _ _ _ => true | _ => false end.

(** The requests sent to the provider, in order. *)
Definition fetches (tr : list event) : list event := filter is_fetch tr.

(** The row asks the provider for a price: its symbol is not blank and
    [find_pair] gives a non-empty pair identifier for it. *)
Definition resolvable (w : world) (self : KrakenPairsCache) (raw : option string)
    : bool :=
  str_truthy (symbol_of raw)
  && negb (pair_missing (find_pair self (symbol_of raw) (QUOTE_CCY w))).

(** The ticker request of a resolvable row. *)
Definition row_request (w : world) (self : KrakenPairsCache) (raw : option string)
    : event :=
  ticker_event w (default "" (find_pair self (symbol_of raw) (QUOTE_CCY w))).

(** Neither ["X"] nor ["Z"] occurs in the code. *)
Definition code_clean (s : string) : Prop :=
  has_char "X" s = false ∧ has_char "Z" s = false.

Definition keys_clean (m : gmap (string * string) string) : Prop :=
  ∀ base quote p, m !! (base, quote) = Some p → code_clean base ∧ code_clean quote.

(** [meta.get(field, "")] is a [str]: the field is absent or holds a string. *)
Definition field_ok (meta : json) (field : string) : bool :=
  match meta with
  | JObj kvs =>
      match assoc_get field kvs with
      | None | Some (JStr _) => true
      | Some _ => false
      end
  | _ => false
  end.

(** The catalog entry is an object whose base and quote, when present, are
    strings. *)
Definition entry_ok (meta : json) : bool :=
  field_ok meta "base" && field_ok meta "quote".

(** A price, or one of the two markers. *)
Definition price_or_marker (v : cell_value) : Prop :=
  match v with
  | VFloat _ => True
  | VStr s => s = "N/A" ∨ s = "ERR"
  end.

(** The state of an invocation once the worksheet was found and its column
    read. *)
Definition after_read (w : world) (st : state) : state :=
  add_events st [EvWorksheet (WORKSHEET_NAME w); EvColValues 1].

(** The outcome of the catalog request of a refresh that starts in [st],
    up to the new mapping. *)
Definition catalog_outcome (w : world) (st : state)
    : result (gmap (string * string) string) :=
  r ← catalog_reply w st; catalog_mapping r.

(** Every batch written in the trace holds prices and markers only. *)
Definition writes_prices_or_markers (tr : list event) : Prop :=
  Forall (λ ev, match ev with
                | EvUpdateCells cells =>
                    Forall (λ c, price_or_marker (cell_value_of c)) cells
                | _ => True
                end) tr.

(** The mapping [m'] is [m] itself or was built from one catalog reply. *)
Definition kept_or_rebuilt (m m' : gmap (string * string) string) : Prop :=
  m' = m ∨ ∃ r, catalog_mapping r = Ok m'.

(** ** Vocabulary of the revised statements *)

(** The catalog entry is an object whose base and quote are these codes. *)
Definition has_codes (base quote : string) (meta : json) : bool :=
  match meta with
  | JObj kvs =>
      match assoc_get "base" kvs, assoc_get "quote" kvs with
      | Some (JStr b), Some (JStr q) => String.eqb b base && String.eqb q quote
      | _, _ => false
      end
  | _ => false
  end.

(** The pair identifier of the last catalog entry with these codes. *)
Fixpoint last_pair_with_codes (base quote : string) (items : list (string * json))
    : option string :=
  match items with
  | [] => None
  | (pair_name, meta) :: rest =>
      match last_pair_with_codes base quote rest with
      | Some q => Some q
      | None => if has_codes base quote meta then Some pair_name else None
      end
  end.

(** From [st] to [st'] the trace has only grown, and the mapping of the
    cache is still the one of [st], or it is the mapping built from a reply
    that the provider gave, in this very run, to a catalog request which the
    trace of [st'] records after the trace of [st]. *)
Definition kept_or_received (w : world) (st st' : state) : Prop :=
  trace st `prefix_of` trace st' ∧
  (_pairs_by_base_quote (pairs_cache st') = _pairs_by_base_quote (pairs_cache st) ∨
   ∃ pre r,
     trace st `prefix_of` pre ∧
     (pre ++ [refresh_log; refresh_get w]) `prefix_of` trace st' ∧
     requests_get w (pre ++ [refresh_log]) AssetPairs_url None = Ok r ∧
     catalog_mapping r = Ok (_pairs_by_base_quote (pairs_cache st'))).

(** * Proofs *)

Ltac unfold_result :=
  unfold mbind, mret, result_mbind, result_ret, result_bind in *.

Ltac case_result :=
  match goal with
  | |- context [match ?x with Ok _ => _ | Raise _ => _ end] => destruct x eqn:?
  end.

Ltac norm_trace := simpl; rewrite <- ?app_assoc; simpl.

Ltac trace_eq :=
  do 2 f_equal; simpl; rewrite <- ?app_assoc; simpl; rewrite <- ?app_assoc; done.

Ltac unfold_M :=
  unfold mbind, mret, M_mbind, M_mret, M_bind, M_ret in *.

(** ** The model on small inputs *)

Example normalize_base_examples :
  normalize_base "BTC" = "XBT" ∧ normalize_base "bitcoin" = "XBT" ∧
  normalize_base " eth " = "ETH" ∧ normalize_base "Bitcoin Cash" = "BCH" ∧
  normalize_base "nope" = "NOPE".
Proof. repeat split; reflexivity. Qed.

Example strip_examples :
  py_strip "  a b  " = "a b" ∧ py_strip "   " = "" ∧ symbol_of None = "".
Proof. repeat split; reflexivity. Qed.

Example demo_invocation_events :
  events_of (update_sheet_once demo_world) init_state
  = [ EvWorksheet "tab"; EvColValues 1; refresh_log; refresh_get demo_world;
      EvLog INFO "Loaded %d Kraken pairs";
      ticker_event demo_world "XXBTZUSD"; no_pair_log;
      ticker_event demo_world "XETHZUSD";
      EvUpdateCells [ output_cell 0 (VFloat (float_of_Z 50000));
                      output_cell 2 (VStr "N/A");
                      output_cell 3 (VFloat (float_of_Z 3000)) ];
      EvLog INFO "Updated %d price cells." ].
Proof. vm_compute. reflexivity. Qed.

Example failing_ticker_invocation_cells :
  filter is_write (events_of (update_sheet_once failing_ticker_world) init_state)
  = [ EvUpdateCells [ output_cell 0 (VStr "ERR"); output_cell 2 (VStr "N/A");
                      output_cell 3 (VStr "ERR") ] ].
Proof. vm_compute. reflexivity. Qed.

Example list_result_is_indexed :
  result_price demo_world
    (JObj [("result", JArr [JInt 1; JObj [("c", JArr [JStr "7"])]])])
  = Ok (float_of_Z 7).
Proof. reflexivity. Qed.

(** ** Strings *)

Lemma has_char_remove_same c s : has_char c (remove_char c s) = false.
Proof.
  induction s as [|d r IH]; simpl; [done|].
  destruct (Ascii.eqb d c) eqn:E; simpl; [done|].
  by rewrite E.
Qed.

Lemma has_char_remove_other c d s :
  has_char c s = false → has_char c (remove_char d s) = false.
Proof.
  induction s as [|a r IH]; simpl; [done|].
  intros [Ha Hr]%orb_false_iff.
  destruct (Ascii.eqb a d); simpl; [auto|].
  rewrite Ha. simpl. auto.
Qed.

Lemma stripped_code_no_X meta field s :
  stripped_code meta field = Ok s → has_char "X" s = false.
Proof.
  unfold stripped_code, py_get_default, py_get, py_replace. unfold_result.
  destruct meta; try discriminate.
  destruct (default (JStr "") (assoc_get field fields)); try discriminate.
  intros [= <-]. apply has_char_remove_other, has_char_remove_same.
Qed.

(** ** The mapping a refresh builds *)

Lemma has_key_nonempty_inserts meta b q key :
  stripped_code meta "base" = Ok b →
  stripped_code meta "quote" = Ok q →
  has_key key meta = bool_decide ((b, q) = key).
Proof.
  intros Hb Hq. unfold has_key, entry_key. unfold_result. by rewrite Hb, Hq.
Qed.

Lemma build_loop_lookup items :
  ∀ m0 m key,
    build_loop items m0 = Ok m →
    str_truthy key.1 && str_truthy key.2 = true →
    m !! key = match last_pair_for key items with
               | Some q => Some q
               | None => m0 !! key
               end.
Proof.
  induction items as [|[p meta] rest IH]; intros m0 m key Hrun Hkey; simpl in *.
  - by injection Hrun as <-.
  - unfold_result.
    destruct (stripped_code meta "base") as [b|] eqn:Hb; [|done].
    destruct (stripped_code meta "quote") as [q|] eqn:Hq; [|done].
    rewrite (IH _ _ key Hrun Hkey).
    destruct (last_pair_for key rest); [done|].
    rewrite (has_key_nonempty_inserts _ _ _ key Hb Hq).
    case_bool_decide as Heq.
    + subst key. simpl in Hkey. rewrite Hkey. by rewrite lookup_insert_eq.
    + destruct (str_truthy b && str_truthy q); [|done].
      by rewrite lookup_insert_ne.
Qed.

Lemma build_loop_keys_nonempty items :
  ∀ m0 m, build_loop items m0 = Ok m → keys_nonempty m0 → keys_nonempty m.
Proof.
  induction items as [|[p meta] rest IH]; intros m0 m Hrun Hinv; simpl in *.
  - by injection Hrun as <-.
  - unfold_result.
    destruct (stripped_code meta "base") as [b|]; [|done].
    destruct (stripped_code meta "quote") as [q|]; [|done].
    apply (IH _ _ Hrun).
    destruct (str_truthy b && str_truthy q) eqn:Ht; [|done].
    apply andb_true_iff in Ht as [Hb Hq].
    intros b' q' p' Hl.
    destruct (decide ((b, q) = (b', q'))) as [[= <- <-]|Hne].
    + split; intros ->; discriminate.
    + rewrite lookup_insert_ne in Hl by done. by apply (Hinv _ _ p').
Qed.

Lemma keys_nonempty_empty : keys_nonempty ∅.
Proof. intros b q p Hl. by rewrite lookup_empty in Hl. Qed.

Lemma build_loop_skip l1 :
  ∀ l2 p meta b q m0,
    entry_key meta = Ok (b, q) →
    b = "" ∨ q = "" →
    build_loop (l1 ++ (p, meta) :: l2) m0 = build_loop (l1 ++ l2) m0.
Proof.
  induction l1 as [|[p1 meta1] l1 IH]; intros l2 p meta b q m0 Hk Hempty; simpl.
  - unfold entry_key in Hk. unfold_result.
    destruct (stripped_code meta "base") as [b'|]; [|done].
    destruct (stripped_code meta "quote") as [q'|]; [|done].
    injection Hk as -> ->.
    by destruct Hempty as [-> | ->]; simpl; rewrite ?andb_false_r.
  - unfold_result.
    destruct (stripped_code meta1 "base"); [|done].
    destruct (stripped_code meta1 "quote"); [|done].
    by apply (IH _ _ _ b q).
Qed.

Lemma last_pair_for_some key items p meta :
  (p, meta) ∈ items → has_key key meta = true →
  is_Some (last_pair_for key items).
Proof.
  induction items as [|[p1 meta1] rest IH]; intros Hin Hk.
  - by apply elem_of_nil in Hin.
  - simpl. apply elem_of_cons in Hin as [[= <- <-]|Hin].
    + rewrite Hk. destruct (last_pair_for key rest); eauto.
    + destruct (IH Hin Hk) as [q ->]. eauto.
Qed.

Lemma last_pair_for_none key items :
  Forall (λ e, has_key key e.2 = false) items → last_pair_for key items = None.
Proof.
  induction 1 as [|[p meta] rest Hk _ IH]; simpl in *; [done|].
  by rewrite IH, Hk.
Qed.

Lemma last_pair_for_last key l1 :
  ∀ p meta l2,
    has_key key meta = true →
    Forall (λ e, has_key key e.2 = false) l2 →
    last_pair_for key (l1 ++ (p, meta) :: l2) = Some p.
Proof.
  induction l1 as [|[p1 meta1] l1 IH]; intros p meta l2 Hk Hl2; simpl.
  - by rewrite (last_pair_for_none _ _ Hl2), Hk.
  - by rewrite (IH _ _ _ Hk Hl2).
Qed.

Lemma has_key_X_false meta base quote :
  has_char "X" base = true → has_key (base, quote) meta = false.
Proof.
  intros HX. unfold has_key, entry_key. unfold_result.
  destruct (stripped_code meta "base") as [b|] eqn:Hb; [|done].
  destruct (stripped_code meta "quote") as [q|]; [|done].
  case_bool_decide as Heq; [|done].
  injection Heq as -> ->. apply stripped_code_no_X in Hb. congruence.
Qed.

Lemma last_pair_for_X key items :
  has_char "X" key.1 = true → last_pair_for key items = None.
Proof.
  intros HX. apply last_pair_for_none, Forall_forall. intros [p meta] _.
  destruct key. by apply has_key_X_false.
Qed.

Lemma entry_codes_key meta :
  entry_codes meta "XXBT" "ZUSD" → has_key ("BT", "USD") meta = true.
Proof.
  intros [Hb Hq]. unfold has_key, entry_key, stripped_code, py_get_default.
  unfold_result. by rewrite Hb, Hq.
Qed.

(** ** What a refresh does to the state *)

Lemma refresh_if_needed_run w st :
  refresh_if_needed w st =
    if is_fresh w (pairs_cache st) (time_time w (trace st)) then (Ok tt, st)
    else match r ← catalog_reply w st; catalog_mapping r with
         | Ok mapping =>
             (Ok tt,
              {| pairs_cache := {| _pairs_by_base_quote := mapping;
                                   _last_refresh := time_time w (trace st) |};
                 trace := trace st ++ [refresh_log; refresh_get w;
                                       EvLog INFO "Loaded %d Kraken pairs"] |})
         | Raise e => (Raise e, add_events st [refresh_log; refresh_get w])
         end.
Proof.
  unfold refresh_if_needed.
  destruct (is_fresh _ _ _); [done|].
  unfold catalog_reply, http_get, call, log, emit, lift, set_cache, add_events.
  unfold_M. unfold_result. simpl.
  destruct (requests_get w _ _ _) as [r|e]; simpl.
  - destruct (catalog_mapping r); simpl; by rewrite <- ?app_assoc.
  - by rewrite <- app_assoc.
Qed.

Lemma ingests_refresh w st st' items :
  ingests w st items →
  refresh_if_needed w st = (Ok tt, st') →
  build_loop items ∅ = Ok (_pairs_by_base_quote (pairs_cache st')).
Proof.
  intros (Hfresh & r & data & Hr & Hs & Hj & He & Hres) Hrun.
  rewrite refresh_if_needed_run, Hfresh, Hr in Hrun.
  unfold catalog_mapping in Hrun. unfold_result.
  rewrite Hs, Hj, He, Hres in Hrun. simpl in Hrun.
  change (build_mapping (JObj items)) with (build_loop items ∅) in Hrun.
  destruct (build_loop items ∅); [|done].
  by injection Hrun as <-.
Qed.

(** ** C7: an empty cache resolves nothing *)

(** C7. Whenever the mapping of the pair cache is empty, [find_pair]
    returns [None] ("not found") for every base and quote: neither the
    exact key nor any of the three fallback keys can hit. *)
Theorem find_pair_empty_cache (self : KrakenPairsCache) (base_input quote : string) :
  _pairs_by_base_quote self = ∅ →
  find_pair self base_input quote = None.
Proof.
  intros Hempty. unfold find_pair. rewrite Hempty. simpl.
  by rewrite !lookup_empty.
Qed.

Lemma find_pair_empty_cache_witness :
  _pairs_by_base_quote KrakenPairsCache_init = ∅ ∧
  find_pair KrakenPairsCache_init " btc " "usd" = None.
Proof.
  split; [reflexivity|].
  apply (find_pair_empty_cache KrakenPairsCache_init " btc " "usd"). reflexivity.
Defined.

(** ** C2: what the refresh strips *)

(** C2 (the code departs from it). The refresh removes every ["X"] and
    every ["Z"] of a code, not one leading prefix letter: ["XXBT"] is keyed
    as ["BT"] where prefix stripping gives ["XBT"], and ["XZEC"] loses its
    inner ["Z"] as well; the cache is keyed by these fully stripped codes,
    so that the symbol ["ZEC"] finds no pair in a catalog that lists it. *)
Theorem refresh_strips_every_X_and_Z :
  stripped_code (meta_of "XXBT" "ZUSD") "base" = Ok "BT" ∧
  strip_prefix "XXBT" = "XBT" ∧
  stripped_code (meta_of "XZEC" "ZUSD") "base" = Ok "EC" ∧
  strip_prefix "XZEC" = "ZEC" ∧
  build_mapping (JObj [("XXBTZUSD", meta_of "XXBT" "ZUSD")])
    = Ok {[ ("BT", "USD") := "XXBTZUSD" ]} ∧
  build_mapping (JObj [("XZECZUSD", meta_of "XZEC" "ZUSD")])
    = Ok {[ ("EC", "USD") := "XZECZUSD" ]} ∧
  find_pair (cache_of {[ ("EC", "USD") := "XZECZUSD" ]}) "ZEC" "USD" = None.
Proof. repeat split; reflexivity. Qed.

(** ** C1: the round trip through the catalog *)

Lemma has_codes_spec base quote meta :
  has_codes base quote meta = true ↔ entry_codes meta base quote.
Proof.
  unfold has_codes, entry_codes, py_get.
  destruct meta as [| | | | | |kvs]; try (split; [done|by intros [? ?]]).
  destruct (assoc_get "base" kvs) as [[| | | |b| |]|];
    try (split; [done|by intros [? ?]]).
  destruct (assoc_get "quote" kvs) as [[| | | |q| |]|];
    try (split; [done|by intros [? ?]]).
  rewrite andb_true_iff, !String.eqb_eq. split.
  - by intros [-> ->].
  - by intros [[= ->] [= ->]].
Qed.

Lemma entry_codes_entry_key meta :
  entry_codes meta "XXBT" "ZUSD" → entry_key meta = Ok ("BT", "USD").
Proof.
  intros [Hb Hq]. unfold entry_key, stripped_code, py_get_default.
  unfold_result. by rewrite Hb, Hq.
Qed.

Lemma has_key_entry_key key meta :
  has_key key meta = true ↔ entry_key meta = Ok key.
Proof.
  unfold has_key. destruct (entry_key meta) as [k|e]; [|done].
  rewrite bool_decide_eq_true. split; [by intros ->|by intros [= ->]].
Qed.

Lemma last_pair_agree key base quote items :
  (∀ p meta, (p, meta) ∈ items → has_key key meta = has_codes base quote meta) →
  last_pair_for key items = last_pair_with_codes base quote items.
Proof.
  induction items as [|[p meta] rest IH]; intros Hagree; simpl; [done|].
  rewrite IH.
  - by rewrite (Hagree p meta (list_elem_of_here _ _)).
  - intros p' meta' Hin. apply (Hagree p' meta'). by apply list_elem_of_further.
Qed.

Lemma last_pair_with_codes_none base quote items :
  Forall (λ e, has_codes base quote e.2 = false) items →
  last_pair_with_codes base quote items = None.
Proof.
  induction 1 as [|[p meta] rest Hk _ IH]; simpl in *; [done|].
  by rewrite IH, Hk.
Qed.

Lemma last_pair_with_codes_last base quote l1 :
  ∀ p meta l2,
    has_codes base quote meta = true →
    Forall (λ e, has_codes base quote e.2 = false) l2 →
    last_pair_with_codes base quote (l1 ++ (p, meta) :: l2) = Some p.
Proof.
  induction l1 as [|[p1 meta1] l1 IH]; intros p meta l2 Hk Hl2; simpl.
  - by rewrite (last_pair_with_codes_none _ _ _ Hl2), Hk.
  - by rewrite (IH _ _ _ Hk Hl2).
Qed.

(** C1 (as amended). If a refresh ingests a catalog holding an entry with
    base ["XXBT"] and quote ["ZUSD"], and no catalog entry with other codes
    is given the cache key of that entry by the refresh, then after that
    refresh [find_pair "BTC" "USD"] resolves: it returns the pair
    identifier of the last catalog entry with base ["XXBT"] and quote
    ["ZUSD"], which is the entry's own identifier when no later entry has
    the same codes. *)
Theorem refresh_then_find_btc_usd (w : world) (st st' : state)
    (items : list (string * json)) (p : string) (meta : json) :
  ingests w st items →
  (p, meta) ∈ items →
  entry_codes meta "XXBT" "ZUSD" →
  (∀ p' meta', (p', meta') ∈ items → entry_key meta' = entry_key meta →
               entry_codes meta' "XXBT" "ZUSD") →
  refresh_if_needed w st = (Ok tt, st') →
  ∃ q, find_pair (pairs_cache st') "BTC" "USD" = Some q ∧
       last_pair_with_codes "XXBT" "ZUSD" items = Some q ∧
       (∀ l1 l2, items = l1 ++ (p, meta) :: l2 →
                 Forall (λ e, has_codes "XXBT" "ZUSD" e.2 = false) l2 →
                 q = p).
Proof.
  intros Hing Hin Hcodes Hsame Hrun.
  pose proof (ingests_refresh _ _ _ _ Hing Hrun) as Hbuild.
  pose proof (entry_codes_key _ Hcodes) as Hkey.
  pose proof (entry_codes_entry_key _ Hcodes) as Hek.
  assert (Hagree : last_pair_for ("BT", "USD") items
                   = last_pair_with_codes "XXBT" "ZUSD" items).
  { apply last_pair_agree. intros p' meta' Hin'.
    destruct (has_codes "XXBT" "ZUSD" meta') eqn:Hc.
    - apply has_codes_spec in Hc. by apply entry_codes_key.
    - destruct (has_key ("BT", "USD") meta') eqn:Hk; [|done].
      apply has_key_entry_key in Hk. rewrite <- Hek in Hk.
      apply (Hsame p' meta' Hin'), has_codes_spec in Hk. congruence. }
  destruct (last_pair_for_some _ _ _ _ Hin Hkey) as [q Hq].
  exists q. split; [|split; [by rewrite <- Hagree|]].
  - unfold find_pair.
    change (normalize_base "BTC") with "XBT".
    change (py_strip (py_upper "USD")) with "USD".
    change (py_strip (py_upper "BTC")) with "BTC".
    rewrite (build_loop_lookup _ _ _ ("XBT", "USD") Hbuild eq_refl).
    rewrite (last_pair_for_X ("XBT", "USD") items eq_refl), lookup_empty.
    simpl first_hit.
    rewrite (build_loop_lookup _ _ _ ("XBT", "USD") Hbuild eq_refl).
    rewrite (last_pair_for_X ("XBT", "USD") items eq_refl), lookup_empty.
    rewrite (build_loop_lookup _ _ _ ("BT", "USD") Hbuild eq_refl).
    by rewrite Hq.
  - intros l1 l2 -> Hl2. rewrite Hagree in Hq.
    apply has_codes_spec in Hcodes.
    rewrite (last_pair_with_codes_last _ _ _ _ _ _ Hcodes Hl2) in Hq. congruence.
Qed.

Lemma demo_world_ingests : ingests demo_world init_state demo_catalog.
Proof.
  split; [reflexivity|].
  exists (ok_body (JObj demo_catalog)),
         (JObj [("error", JArr []); ("result", JObj demo_catalog)]).
  repeat split; reflexivity.
Defined.

Lemma demo_catalog_no_collision :
  ∀ p' meta', (p', meta') ∈ demo_catalog →
              entry_key meta' = entry_key (meta_of "XXBT" "ZUSD") →
              entry_codes meta' "XXBT" "ZUSD".
Proof.
  intros p' meta' Hin Hk.
  apply elem_of_cons in Hin as [[= -> ->]|Hin]; [split; reflexivity|].
  apply elem_of_cons in Hin as [[= -> ->]|Hin]; [discriminate Hk|].
  by apply elem_of_nil in Hin.
Defined.

Lemma refresh_then_find_btc_usd_witness :
  ∃ q, find_pair (pairs_cache (snd (refresh_if_needed demo_world init_state)))
         "BTC" "USD" = Some q ∧
       last_pair_with_codes "XXBT" "ZUSD" demo_catalog = Some q ∧
       (∀ l1 l2, demo_catalog = l1 ++ ("XXBTZUSD", meta_of "XXBT" "ZUSD") :: l2 →
                 Forall (λ e, has_codes "XXBT" "ZUSD" e.2 = false) l2 →
                 q = "XXBTZUSD").
Proof.
  apply (refresh_then_find_btc_usd demo_world init_state _ demo_catalog
           "XXBTZUSD" (meta_of "XXBT" "ZUSD")).
  - exact demo_world_ingests.
  - apply list_elem_of_here.
  - split; reflexivity.
  - exact demo_catalog_no_collision.
  - vm_compute. reflexivity.
Defined.

(** C1 as stated fails: with the catalog that lists the pair and its
    dark-pool twin, both of base ["XXBT"] and quote ["ZUSD"], the lookup
    answers the twin's identifier, not the first entry's. *)
Lemma roundtrip_as_stated_fails : ¬ roundtrip_as_stated.
Proof.
  intros H.
  specialize (H twin_world init_state
                (snd (refresh_if_needed twin_world init_state))
                twin_catalog "XXBTZUSD" (meta_of "XXBT" "ZUSD")).
  assert (Hing : ingests twin_world init_state twin_catalog).
  { split; [reflexivity|].
    exists (ok_body (JObj twin_catalog)),
           (JObj [("error", JArr []); ("result", JObj twin_catalog)]).
    repeat split; reflexivity. }
  specialize (H Hing (list_elem_of_here _ _) (conj eq_refl eq_refl)).
  assert (Hrun : refresh_if_needed twin_world init_state
                 = (Ok tt, snd (refresh_if_needed twin_world init_state))).
  { vm_compute. reflexivity. }
  specialize (H Hrun). vm_compute in H. discriminate H.
Qed.

(** ** C3: a failed refresh leaves the cache alone *)

(** C3. For every prior state, a refresh that raises, wherever it raises
    (the HTTP call, the status check, the JSON decoding, the error field,
    a malformed catalog), leaves the whole pair cache exactly as it was;
    a refresh that returns either was skipped as fresh and changed nothing,
    or replaced the mapping wholesale by the one built from the provider's
    reply, independently of the previous mapping. *)
Theorem refresh_is_atomic (w : world) (st st' : state) (res : result unit) :
  refresh_if_needed w st = (res, st') →
  (∀ e, res = Raise e → pairs_cache st' = pairs_cache st) ∧
  (res = Ok tt →
     (is_fresh w (pairs_cache st) (time_time w (trace st)) = true ∧ st' = st) ∨
     (∃ r, catalog_reply w st = Ok r ∧
           catalog_mapping r = Ok (_pairs_by_base_quote (pairs_cache st')) ∧
           _last_refresh (pairs_cache st') = time_time w (trace st))).
Proof.
  rewrite refresh_if_needed_run. intros Hrun.
  destruct (is_fresh _ _ _).
  { injection Hrun as <- <-. split; [done|]. intros _. by left. }
  unfold_result.
  destruct (catalog_reply w st) as [r|e0]; simpl in Hrun.
  - destruct (catalog_mapping r) as [m|e0] eqn:Hm; injection Hrun as <- <-.
    + split; [done|]. intros _. right. exists r. by rewrite Hm.
    + split; [|done]. by intros e _.
  - injection Hrun as <- <-. split; [|done]. by intros e _.
Qed.

Lemma refresh_is_atomic_witness :
  (∀ e, (Raise RequestException : result unit) = Raise e →
        pairs_cache (snd (refresh_if_needed down_world warm_state))
        = pairs_cache warm_state) ∧
  ((Raise RequestException : result unit) = Ok tt →
     (is_fresh down_world (pairs_cache warm_state)
        (time_time down_world (trace warm_state)) = true ∧
      snd (refresh_if_needed down_world warm_state) = warm_state) ∨
     (∃ r, catalog_reply down_world warm_state = Ok r ∧
           catalog_mapping r
           = Ok (_pairs_by_base_quote
                   (pairs_cache (snd (refresh_if_needed down_world warm_state)))) ∧
           _last_refresh (pairs_cache (snd (refresh_if_needed down_world warm_state)))
           = time_time down_world (trace warm_state))).
Proof.
  apply (refresh_is_atomic down_world warm_state).
  vm_compute. reflexivity.
Defined.

(** ** C10: which price the fetcher reads *)

Lemma get_kraken_last_price_run w pair_name st :
  get_kraken_last_price w pair_name st =
    (r ← requests_get w (trace st) Ticker_url (Some pair_name);
     ticker_price w r,
     add_events st [EvGet Ticker_url (Some pair_name)
                      (REQUEST_TIMEOUT w)]).
Proof.
  unfold get_kraken_last_price, http_get, call, lift, add_events.
  unfold_M. unfold_result.
  by destruct (requests_get w _ _ _).
Qed.

(** C10. For every ticker reply that passes the status, decoding and
    error-field checks and whose result is an object: when the object is
    empty the fetcher raises [StopIteration]; otherwise it looks only at the
    first entry in iteration order, whatever that entry's key is and
    whatever the other entries are, and, that entry being an object whose
    ["c"] list starts with the price string [s], it returns [float(s)]
    when [s] is numeric and raises [ValueError] when it is not. The pair
    that was requested only goes into the request: the outcome of the call
    is the outcome on the reply. *)
Theorem ticker_price_first_entry (w : world) (r : response) (data : json)
    (fields : list (string * json)) :
  raise_for_status r = Ok tt →
  response_json r = Ok data →
  check_error "Kraken Ticker error: " data = Ok tt →
  py_getitem data (JStr "result") = Ok (JObj fields) →
  (fields = [] → ticker_price w r = Raise StopIteration) ∧
  (∀ k efields rest s more,
     fields = (k, JObj efields) :: rest →
     assoc_get "c" efields = Some (JArr (JStr s :: more)) →
     ticker_price w r = match float_of_str w s with
                        | Some price => Ok price
                        | None => Raise ValueError
                        end) ∧
  (∀ pair_name st,
     requests_get w (trace st) Ticker_url (Some pair_name) = Ok r →
     fst (get_kraken_last_price w pair_name st) = ticker_price w r).
Proof.
  intros Hs Hj He Hres.
  assert (Hprice : ticker_price w r
                   = match fields with
                     | [] => Raise StopIteration
                     | (_, entry) :: _ => entry_price w entry
                     end).
  { unfold ticker_price, result_price. unfold_result.
    rewrite Hs, Hj, He, Hres. destruct fields as [|[k entry] rest]; simpl; [done|].
    by rewrite String.eqb_refl. }
  split; [by intros ->|]. split.
  - intros k efields rest s more -> Hc. rewrite Hprice.
    unfold entry_price. unfold_result. simpl. by rewrite Hc.
  - intros pair_name st Hreply. rewrite get_kraken_last_price_run. simpl.
    unfold_result. by rewrite Hreply.
Qed.

Lemma ticker_price_first_entry_witness :
  ticker_price demo_world (ok_body (JObj [])) = Raise StopIteration ∧
  ticker_price demo_world
    (ok_body (JObj [("ANYKEY", JObj [("c", JArr [JStr "50000"; JStr "0.1"])]);
                    ("OTHER", JObj [("c", JArr [JStr "1"])])]))
  = Ok (float_of_Z 50000) ∧
  ticker_price demo_world (ticker_body "ANYKEY" "n/a") = Raise ValueError.
Proof.
  split; [|split].
  - apply (ticker_price_first_entry demo_world (ok_body (JObj []))
             (JObj [("error", JArr []); ("result", JObj [])]) []);
      reflexivity.
  - apply (proj1 (proj2
      (ticker_price_first_entry demo_world
         (ok_body (JObj [("ANYKEY", JObj [("c", JArr [JStr "50000"; JStr "0.1"])]);
                         ("OTHER", JObj [("c", JArr [JStr "1"])])]))
         (JObj [("error", JArr []);
                ("result",
                 JObj [("ANYKEY", JObj [("c", JArr [JStr "50000"; JStr "0.1"])]);
                       ("OTHER", JObj [("c", JArr [JStr "1"])])])])
         [("ANYKEY", JObj [("c", JArr [JStr "50000"; JStr "0.1"])]);
          ("OTHER", JObj [("c", JArr [JStr "1"])])]
         eq_refl eq_refl eq_refl eq_refl))
      "ANYKEY" [("c", JArr [JStr "50000"; JStr "0.1"])]
      [("OTHER", JObj [("c", JArr [JStr "1"])])] "50000" [JStr "0.1"]);
      reflexivity.
  - apply (proj1 (proj2
      (ticker_price_first_entry demo_world (ticker_body "ANYKEY" "n/a")
         (JObj [("error", JArr []);
                ("result", JObj [("ANYKEY", JObj [("c", JArr [JStr "n/a"; JStr "0.1"])])])])
         [("ANYKEY", JObj [("c", JArr [JStr "n/a"; JStr "0.1"])])]
         eq_refl eq_refl eq_refl eq_refl))
      "ANYKEY" [("c", JArr [JStr "n/a"; JStr "0.1"])] [] "n/a" [JStr "0.1"]);
      reflexivity.
Defined.

(** ** Traces *)

Lemma add_events_nil st : add_events st [] = st.
Proof. destruct st. unfold add_events. simpl. by rewrite app_nil_r. Qed.

Lemma add_events_app st tr1 tr2 :
  add_events (add_events st tr1) tr2 = add_events st (tr1 ++ tr2).
Proof. unfold add_events. simpl. by rewrite app_assoc. Qed.

Lemma events_of_extends {A} (m : M A) st c tr res :
  m st = (res, {| pairs_cache := c; trace := trace st ++ tr |}) →
  events_of m st = tr.
Proof. intros H. unfold events_of. rewrite H. simpl. by rewrite drop_app_length. Qed.

Lemma quiet_app tr1 tr2 : quiet tr1 → quiet tr2 → quiet (tr1 ++ tr2).
Proof. unfold quiet. intros H1 H2. by rewrite forallb_app, H1, H2. Qed.

Lemma quiet_filter (f : event → bool) tr :
  (∀ ev, is_quiet ev = true → f ev = false) → quiet tr → filter f tr = [].
Proof.
  intros Hf. unfold quiet.
  induction tr as [|ev tr IH]; simpl; [done|].
  intros [Hev Htr]%andb_true_iff.
  rewrite filter_cons. specialize (Hf ev Hev).
  destruct (decide (f ev)) as [Hfe|_]; [by rewrite Hf in Hfe|]. by apply IH.
Qed.

Lemma quiet_no_read tr : quiet tr → filter is_read tr = [].
Proof. apply quiet_filter. by intros []. Qed.

Lemma quiet_no_write tr : quiet tr → filter is_write tr = [].
Proof. apply quiet_filter. by intros []. Qed.

Lemma quiet_no_sleep tr : quiet tr → filter is_sleep tr = [].
Proof. apply quiet_filter. by intros []. Qed.

Lemma quiet_not_write tr cells : quiet tr → EvUpdateCells cells ∉ tr.
Proof.
  intros Hq Hin. pose proof (quiet_no_write _ Hq) as Hf.
  assert (EvUpdateCells cells ∈ filter is_write tr) as Hin'.
  { apply list_elem_of_filter. by split. }
  rewrite Hf in Hin'. by apply elem_of_nil in Hin'.
Qed.

(** ** The staging loop, turn by turn *)

Lemma stage_row_run w idx raw cells st :
  stage_row w idx raw cells st =
    if negb (str_truthy (symbol_of raw)) then (Ok cells, st)
    else
      let pair_name := find_pair (pairs_cache st) (symbol_of raw) (QUOTE_CCY w) in
      if pair_missing pair_name
      then (Ok (cells ++ [output_cell idx (VStr "N/A")]), add_events st [no_pair_log])
      else
        let p := default "" pair_name in
        match r ← ticker_reply w st p; ticker_price w r with
        | Ok price =>
            (Ok (cells ++ [output_cell idx (VFloat price)]),
             add_events st [ticker_event w p])
        | Raise _ =>
            (Ok (cells ++ [output_cell idx (VStr "ERR")]),
             add_events st [ticker_event w p; fetch_failed_log])
        end.
Proof.
  unfold stage_row. destruct (negb (str_truthy (symbol_of raw))); [done|].
  unfold try_except, stage_try, get_cache. unfold_M. simpl.
  destruct (pair_missing _); [done|].
  rewrite get_kraken_last_price_run. unfold ticker_reply. unfold_result.
  case_result; simpl; [done|].
  unfold log, emit, add_events. simpl. by rewrite <- app_assoc.
Qed.

Lemma stage_row_spec w idx raw cells st :
  ∃ new tr,
    stage_row w idx raw cells st = (Ok (cells ++ new), add_events st tr) ∧
    quiet tr ∧
    map cell_row new = (if str_truthy (symbol_of raw) then [start_row + idx] else []) ∧
    Forall (λ c, cell_col c = 2) new.
Proof.
  rewrite stage_row_run.
  destruct (str_truthy (symbol_of raw)); simpl.
  - destruct (pair_missing _).
    { eexists [_], _. repeat split; try done. by repeat constructor. }
    case_result.
    + eexists [_], _. repeat split; try done. by repeat constructor.
    + eexists [_], _. repeat split; try done. by repeat constructor.
  - exists [], []. rewrite app_nil_r, add_events_nil. by repeat split.
Qed.

Lemma stage_rows_spec w inputs :
  ∀ idx cells st,
    ∃ new tr,
      stage_rows w idx inputs cells st = (Ok (cells ++ new), add_events st tr) ∧
      quiet tr ∧
      map cell_row new = nonblank_rows idx inputs ∧
      Forall (λ c, cell_col c = 2) new.
Proof.
  induction inputs as [|raw rest IH]; intros idx cells st; simpl.
  - exists [], []. rewrite app_nil_r, add_events_nil. by repeat split.
  - destruct (stage_row_spec w idx raw cells st) as (new1 & tr1 & Hrow & Hq1 & Hr1 & Hc1).
    destruct (IH (idx + 1) (cells ++ new1) (add_events st tr1))
      as (new2 & tr2 & Hrows & Hq2 & Hr2 & Hc2).
    exists (new1 ++ new2), (tr1 ++ tr2).
    unfold_M. rewrite Hrow, Hrows, add_events_app, <- app_assoc.
    split; [done|]. split; [by apply quiet_app|]. split.
    + rewrite map_app, Hr1, Hr2. by destruct (str_truthy (symbol_of raw)).
    + by apply Forall_app.
Qed.

(** ** C5: a provider-reported ticker error *)

Lemma check_error_raises msg fields v :
  assoc_get "error" fields = Some v → py_truthy v = true →
  check_error msg (JObj fields) = Raise (RuntimeError msg v).
Proof. intros Hget Hv. unfold check_error. simpl. unfold_result. by rewrite Hget, Hv. Qed.

(** C5. For every ticker reply whose JSON body carries an error field that
    is set (a non-empty list, string or object, or any other true value),
    the price fetcher raises instead of returning a number, and the row that
    asked for the price gets the ["ERR"] cell, not a numeric one. *)
Theorem ticker_error_gives_ERR (w : world) (r : response)
    (fields : list (string * json)) (v : json) :
  response_json r = Ok (JObj fields) →
  assoc_get "error" fields = Some v →
  py_truthy v = true →
  (∃ e, ticker_price w r = Raise e) ∧
  (∀ pair_name st,
     ticker_reply w st pair_name = Ok r →
     ∃ e, fst (get_kraken_last_price w pair_name st) = Raise e) ∧
  (∀ idx raw cells st p,
     str_truthy (symbol_of raw) = true →
     find_pair (pairs_cache st) (symbol_of raw) (QUOTE_CCY w) = Some p →
     str_truthy p = true →
     ticker_reply w st p = Ok r →
     fst (stage_row w idx raw cells st)
     = Ok (cells ++ [{| cell_row := start_row + idx; cell_col := 2;
                        cell_value_of := VStr "ERR" |}])).
Proof.
  intros Hj Hget Hv.
  assert (Hraise : ∃ e, ticker_price w r = Raise e).
  { unfold ticker_price. unfold_result.
    destruct (raise_for_status r); [|eauto].
    rewrite Hj, (check_error_raises _ _ _ Hget Hv). eauto. }
  split; [done|]. destruct Hraise as [e He]. split.
  - intros pair_name st Hreply. exists e.
    rewrite get_kraken_last_price_run. simpl. fold (ticker_reply w st pair_name).
    rewrite Hreply. exact He.
  - intros idx raw cells st p Hsym Hfind Hp Hreply.
    rewrite stage_row_run, Hsym, Hfind. simpl. rewrite Hp. simpl.
    rewrite Hreply. unfold_result. by rewrite He.
Qed.

Lemma ticker_error_gives_ERR_witness :
  (∃ e, ticker_price failing_ticker_world (error_body "EService:Unavailable")
        = Raise e) ∧
  (∀ pair_name st,
     ticker_reply failing_ticker_world st pair_name
     = Ok (error_body "EService:Unavailable") →
     ∃ e, fst (get_kraken_last_price failing_ticker_world pair_name st) = Raise e) ∧
  (∀ idx raw cells st p,
     str_truthy (symbol_of raw) = true →
     find_pair (pairs_cache st) (symbol_of raw) (QUOTE_CCY failing_ticker_world)
     = Some p →
     str_truthy p = true →
     ticker_reply failing_ticker_world st p = Ok (error_body "EService:Unavailable") →
     fst (stage_row failing_ticker_world idx raw cells st)
     = Ok (cells ++ [{| cell_row := start_row + idx; cell_col := 2;
                        cell_value_of := VStr "ERR" |}])).
Proof.
  apply (ticker_error_gives_ERR failing_ticker_world
           (error_body "EService:Unavailable")
           [("error", JArr [JStr "EService:Unavailable"])]
           (JArr [JStr "EService:Unavailable"]));
    reflexivity.
Defined.

(** ** C4: one staged cell per non-blank symbol *)








(** ** One invocation of the sheet updater *)

Lemma catalog_mapping_keys_nonempty r m :
  catalog_mapping r = Ok m → keys_nonempty m.
Proof.
  unfold catalog_mapping, build_mapping, py_items. unfold_result.
  destruct (raise_for_status r); [|done].
  destruct (response_json r) as [data|]; [|done].
  destruct (check_error _ data); [|done].
  destruct (py_getitem data (JStr "result")) as [pairs|]; [|done].
  destruct pairs; try done.
  intros Hb. exact (build_loop_keys_nonempty _ _ _ Hb keys_nonempty_empty).
Qed.

Lemma refresh_if_needed_spec w st :
  ∃ res c tr,
    refresh_if_needed w st = (res, {| pairs_cache := c; trace := trace st ++ tr |}) ∧
    quiet tr ∧
    (keys_nonempty (_pairs_by_base_quote (pairs_cache st)) →
     keys_nonempty (_pairs_by_base_quote c)).
Proof.
  rewrite refresh_if_needed_run.
  destruct (is_fresh _ _ _).
  { exists (Ok tt), (pairs_cache st), []. rewrite app_nil_r. by destruct st. }
  unfold_result.
  destruct (catalog_reply w st) as [r|e]; simpl.
  - destruct (catalog_mapping r) as [m|e] eqn:Hm.
    + eexists _, _, _. split; [reflexivity|]. split; [done|].
      intros _. simpl. by apply (catalog_mapping_keys_nonempty r).
    + eexists _, _, _. split; [reflexivity|]. by split.
  - eexists _, _, _. split; [reflexivity|]. by split.
Qed.

Lemma update_sheet_once_shape w st :
  ∃ res c tr,
    update_sheet_once w st = (res, {| pairs_cache := c; trace := trace st ++ tr |}) ∧
    (keys_nonempty (_pairs_by_base_quote (pairs_cache st)) →
     keys_nonempty (_pairs_by_base_quote c)) ∧
    ((sh_worksheet w (trace st) (WORKSHEET_NAME w) ≠ None ∧
      tr = [EvWorksheet (WORKSHEET_NAME w)]) ∨
     (sh_worksheet w (trace st) (WORKSHEET_NAME w) = None ∧
      ∃ q wr,
        tr = EvWorksheet (WORKSHEET_NAME w) :: EvColValues 1 :: q ++ wr ∧
        quiet q ∧
        (wr = [] ∨
         ∃ cells col q',
           wr = EvUpdateCells cells :: q' ∧ quiet q' ∧
           sheet_reply w st = Ok col ∧
           map cell_row cells = nonblank_rows 0 (tail col) ∧
           Forall (λ c, cell_col c = 2) cells) ∧
        (∀ col, sheet_reply w st = Ok col → nonblank_rows 0 (tail col) = [] → wr = []))).
Proof.
  unfold update_sheet_once, open_worksheet, col_values, call, of_option_exn.
  unfold_M. simpl.
  destruct (sh_worksheet w (trace st) (WORKSHEET_NAME w)) as [e|] eqn:Hws.
  { eexists _, _, [_]. split; [reflexivity|]. split; [done|]. by left. }
  fold (sheet_reply w st).
  destruct (sheet_reply w st) as [col|e] eqn:Hcol.
  2:{ eexists _, (pairs_cache st), [_; _]. rewrite <- app_assoc.
      split; [reflexivity|]. split; [done|]. right. split; [done|].
      exists [], []. repeat split; by auto. }
  destruct (Z.of_nat (length col) <=? 1).
  { unfold log, emit. simpl.
    eexists _, (pairs_cache st), [_; _; _]. rewrite <- !app_assoc.
    split; [reflexivity|]. split; [done|]. right. split; [done|].
    exists [EvLog INFO "No tickers found (only header or empty)."], [].
    repeat split; by auto. }
  match goal with
  | |- context [refresh_if_needed w ?s] =>
      destruct (refresh_if_needed_spec w s) as (res & c & tr1 & Hrun & Hq1 & Hinv);
      rewrite Hrun
  end.
  simpl in Hinv.
  destruct res as [[]|e].
  2:{ norm_trace. eexists _, c, (_ :: _ :: tr1). split; [reflexivity|]. split; [done|].
      right. split; [done|]. exists tr1, []. rewrite app_nil_r. repeat split; by auto. }
  match goal with
  | |- context [stage_rows w 0 (tail col) [] ?s] =>
      destruct (stage_rows_spec w (tail col) 0 [] s)
        as (new & tr2 & Hstage & Hq2 & Hrows & Hcols);
      rewrite Hstage
  end.
  unfold add_events. simpl.
  destruct new as [|c0 new].
  { norm_trace. eexists _, c, (_ :: _ :: tr1 ++ tr2). split; [reflexivity|]. split; [done|].
    right. split; [done|]. exists (tr1 ++ tr2), []. rewrite app_nil_r.
    repeat split; auto using quiet_app. }
  destruct (ws_update_cells w _ (c0 :: new)) as [e|]; simpl.
  - norm_trace.
    eexists _, c, (_ :: _ :: (tr1 ++ tr2) ++ [EvUpdateCells (c0 :: new)]).
    norm_trace.
    split; [reflexivity|]. split; [done|]. right. split; [done|].
    exists (tr1 ++ tr2), [EvUpdateCells (c0 :: new)].
    norm_trace. split; [done|]. split; [by apply quiet_app|]. split.
    + right. exists (c0 :: new), col, []. by repeat split.
    + intros col' [= <-] Hnone. by rewrite Hnone in Hrows.
  - unfold log, emit. norm_trace.
    eexists _, c, (_ :: _ :: (tr1 ++ tr2)
                     ++ [EvUpdateCells (c0 :: new); EvLog INFO "Updated %d price cells."]).
    norm_trace.
    split; [reflexivity|]. split; [done|]. right. split; [done|].
    exists (tr1 ++ tr2), [EvUpdateCells (c0 :: new); EvLog INFO "Updated %d price cells."].
    norm_trace. split; [done|]. split; [by apply quiet_app|]. split.
    + right. exists (c0 :: new), col, [EvLog INFO "Updated %d price cells."].
      by repeat split.
    + intros col' [= <-] Hnone. by rewrite Hnone in Hrows.
Qed.

Lemma count_reads_cons ev tr :
  count_reads (ev :: tr) = ((if is_read ev then 1 else 0) + count_reads tr)%nat.
Proof. unfold count_reads. rewrite filter_cons. by destruct ev. Qed.

Lemma count_writes_cons ev tr :
  count_writes (ev :: tr) = ((if is_write ev then 1 else 0) + count_writes tr)%nat.
Proof. unfold count_writes. rewrite filter_cons. by destruct ev. Qed.

Lemma count_reads_app tr1 tr2 :
  count_reads (tr1 ++ tr2) = (count_reads tr1 + count_reads tr2)%nat.
Proof. unfold count_reads. by rewrite filter_app, length_app. Qed.

Lemma count_writes_app tr1 tr2 :
  count_writes (tr1 ++ tr2) = (count_writes tr1 + count_writes tr2)%nat.
Proof. unfold count_writes. by rewrite filter_app, length_app. Qed.

Lemma quiet_count_reads tr : quiet tr → count_reads tr = 0%nat.
Proof. intros Hq. unfold count_reads. by rewrite quiet_no_read. Qed.

Lemma quiet_count_writes tr : quiet tr → count_writes tr = 0%nat.
Proof. intros Hq. unfold count_writes. by rewrite quiet_no_write. Qed.

(** ** C6: one read, at most one write *)

(** C6 (as amended). In one Sheet Updater invocation the worksheet column
    is read at most once, and exactly once whenever the worksheet lookup
    succeeds; the batch write happens at most once; a write that happens
    carries exactly one cell, in column 2, for each row whose input symbol
    is non-blank and none for any other row; and when no row has a
    non-blank symbol no write call is made. *)
Theorem sheet_read_once_written_at_most_once (w : world) (st : state) :
  let tr := events_of (update_sheet_once w) st in
  (count_reads tr ≤ 1)%nat ∧
  (sh_worksheet w (trace st) (WORKSHEET_NAME w) = None → count_reads tr = 1%nat) ∧
  (count_writes tr ≤ 1)%nat ∧
  (∀ cells, EvUpdateCells cells ∈ tr →
     ∃ col, sheet_reply w st = Ok col ∧
            map cell_row cells = nonblank_rows 0 (tail col) ∧
            Forall (λ c, cell_col c = 2) cells) ∧
  (∀ col, sheet_reply w st = Ok col → nonblank_rows 0 (tail col) = [] →
          count_writes tr = 0%nat).
Proof.
  destruct (update_sheet_once_shape w st) as (res & c & tr & Hrun & _ & Hshape).
  rewrite (events_of_extends _ _ _ _ _ Hrun). cbv zeta.
  destruct Hshape as [[Hws ->] | (Hws & q & wr & -> & Hq & Hwr & Hnone)].
  - split; [by vm_compute; lia|].
    split; [done|].
    split; [by vm_compute; lia|].
    split; [|done].
    intros cells Hin. apply list_elem_of_singleton in Hin. discriminate Hin.
  - rewrite !count_reads_cons, !count_writes_cons, count_reads_app, count_writes_app.
    rewrite (quiet_count_reads q Hq), (quiet_count_writes q Hq). simpl.
    destruct Hwr as [-> | (cells & col & q' & -> & Hq' & Hcol & Hrows & Hcols)].
    + split; [by vm_compute; lia|]. split; [done|]. split; [by vm_compute; lia|].
      split; [|done].
      intros cells Hin. rewrite app_nil_r in Hin.
      apply elem_of_cons in Hin as [Hin|Hin]; [discriminate Hin|].
      apply elem_of_cons in Hin as [Hin|Hin]; [discriminate Hin|].
      by apply quiet_not_write in Hin.
    + rewrite count_reads_cons, count_writes_cons.
      rewrite (quiet_count_reads q' Hq'), (quiet_count_writes q' Hq'). simpl.
      split; [lia|]. split; [done|]. split; [lia|]. split.
      * intros cells' Hin.
        apply elem_of_cons in Hin as [Hin|Hin]; [discriminate Hin|].
        apply elem_of_cons in Hin as [Hin|Hin]; [discriminate Hin|].
        apply elem_of_app in Hin as [Hin|Hin]; [by apply quiet_not_write in Hin|].
        apply elem_of_cons in Hin as [[= ->]|Hin]; [by exists col|].
        by apply quiet_not_write in Hin.
      * intros col' Hcol' Hblank. by specialize (Hnone col' Hcol' Hblank).
Qed.

Lemma sheet_read_once_written_at_most_once_witness :
  count_reads (events_of (update_sheet_once demo_world) init_state) = 1%nat.
Proof.
  apply (proj1 (proj2 (sheet_read_once_written_at_most_once demo_world init_state))).
  reflexivity.
Defined.

(** C6 as stated fails: when the worksheet lookup raises, the invocation
    ends before the column is read, so the read count is zero, not one. *)
Lemma reads_once_as_stated_fails : ¬ reads_once_as_stated.
Proof.
  intros H. specialize (H no_worksheet_world init_state).
  vm_compute in H. discriminate H.
Qed.

(** ** The scheduler loop *)

Lemma iteration_run w st :
  iteration w st =
    let '(res, st1) := update_sheet_once w st in
    let st2 := match res with
               | Ok _ => st1
               | Raise _ => add_events st1 [iteration_failed_log]
               end in
    if POLL_INTERVAL_SECS w <? 0 then (Raise ValueError, st2)
    else if sleep_limit w <? POLL_INTERVAL_SECS w then (Raise OverflowError, st2)
    else (Ok tt, add_events st2 [EvSleep (POLL_INTERVAL_SECS w)]).
Proof.
  unfold iteration, try_except, time_sleep, lift, log, emit. unfold_M.
  destruct (update_sheet_once w st) as [[[]|e] st1]; simpl;
    by destruct (POLL_INTERVAL_SECS w <? 0), (sleep_limit w <? POLL_INTERVAL_SECS w).
Qed.

Lemma sleep_accepts_tests w secs :
  sleep_accepts w secs → (secs <? 0) = false ∧ (sleep_limit w <? secs) = false.
Proof. intros [H0 H1]. split; by apply Z.ltb_ge. Qed.

Lemma update_sheet_once_no_sleep w st :
  ∃ res c tr,
    update_sheet_once w st = (res, {| pairs_cache := c; trace := trace st ++ tr |}) ∧
    sleeps tr = [] ∧
    (keys_nonempty (_pairs_by_base_quote (pairs_cache st)) →
     keys_nonempty (_pairs_by_base_quote c)).
Proof.
  destruct (update_sheet_once_shape w st) as (res & c & tr & Hrun & Hinv & Hshape).
  exists res, c, tr. split; [done|]. split; [|done].
  unfold sleeps.
  destruct Hshape as [[_ ->] | (_ & q & wr & -> & Hq & Hwr & _)]; [done|].
  rewrite !filter_cons. simpl. rewrite filter_app, (quiet_no_sleep q Hq). simpl.
  destruct Hwr as [-> | (cells & col & q' & -> & Hq' & _)]; [done|].
  rewrite filter_cons. simpl. by apply quiet_no_sleep.
Qed.

Lemma iteration_spec w st :
  sleep_accepts w (POLL_INTERVAL_SECS w) →
  ∃ c tr,
    iteration w st = (Ok tt, {| pairs_cache := c; trace := trace st ++ tr |}) ∧
    sleeps tr = [EvSleep (POLL_INTERVAL_SECS w)].
Proof.
  intros Hpoll. rewrite iteration_run.
  destruct (update_sheet_once_no_sleep w st) as (res & c & tr & -> & Hs & _).
  destruct (sleep_accepts_tests _ _ Hpoll) as [-> ->]. unfold add_events, sleeps in *.
  destruct res; norm_trace.
  - exists c, (tr ++ [EvSleep (POLL_INTERVAL_SECS w)]). split; [done|].
    by rewrite filter_app, Hs.
  - exists c, (tr ++ [iteration_failed_log; EvSleep (POLL_INTERVAL_SECS w)]).
    split; [done|]. by rewrite filter_app, Hs.
Qed.

Lemma main_loop_spec w n :
  sleep_accepts w (POLL_INTERVAL_SECS w) →
  ∀ st, ∃ c tr,
    main_loop w n st = (Ok tt, {| pairs_cache := c; trace := trace st ++ tr |}) ∧
    sleeps tr = replicate n (EvSleep (POLL_INTERVAL_SECS w)).
Proof.
  intros Hpoll. induction n as [|n IH]; intros st; simpl.
  - exists (pairs_cache st), []. rewrite app_nil_r. by destruct st.
  - unfold_M.
    destruct (iteration_spec w st Hpoll) as (c1 & tr1 & -> & Hs1).
    destruct (IH {| pairs_cache := c1; trace := trace st ++ tr1 |})
      as (c2 & tr2 & -> & Hs2).
    exists c2, (tr1 ++ tr2). norm_trace. split; [done|].
    unfold sleeps in *. by rewrite filter_app, Hs1, Hs2.
Qed.

Lemma iteration_keys_nonempty w st :
  keys_nonempty (_pairs_by_base_quote (pairs_cache st)) →
  keys_nonempty (_pairs_by_base_quote (pairs_cache (snd (iteration w st)))).
Proof.
  intros Hinv. rewrite iteration_run.
  destruct (update_sheet_once_no_sleep w st) as (res & c & tr & -> & _ & Hc).
  specialize (Hc Hinv).
  by destruct res, (POLL_INTERVAL_SECS w <? 0), (sleep_limit w <? POLL_INTERVAL_SECS w).
Qed.

Lemma main_loop_keys_nonempty w n :
  ∀ st,
    keys_nonempty (_pairs_by_base_quote (pairs_cache st)) →
    keys_nonempty (_pairs_by_base_quote (pairs_cache (snd (main_loop w n st)))).
Proof.
  induction n as [|n IH]; intros st Hinv; simpl; [done|].
  unfold_M. pose proof (iteration_keys_nonempty w st Hinv) as Hit.
  destruct (iteration w st) as [[[]|e] st1]; simpl in *; [|done].
  by apply IH.
Qed.

(** ** C8: the loop never leaves the running state *)

(** C8 (as amended). Provided the configured poll interval is a length
    [time.sleep] accepts (not negative, and within the limit of the
    runtime's timer), the scheduler loop never ends of its own accord: every
    exception raised by a Sheet Updater invocation is caught and logged
    without propagating, each turn, successful or failed, ends with a sleep
    of the poll interval, and for every [n] the loop completes [n] turns and
    goes on. *)
Theorem scheduler_keeps_running (w : world) :
  sleep_accepts w (POLL_INTERVAL_SECS w) →
  (∀ st,
     iteration w st =
       match update_sheet_once w st with
       | (Ok _, st1) => (Ok tt, add_events st1 [EvSleep (POLL_INTERVAL_SECS w)])
       | (Raise _, st1) =>
           (Ok tt, add_events st1 [iteration_failed_log;
                                   EvSleep (POLL_INTERVAL_SECS w)])
       end) ∧
  (∀ n st,
     fst (main_loop w n st) = Ok tt ∧
     sleeps (events_of (main_loop w n) st)
     = replicate n (EvSleep (POLL_INTERVAL_SECS w))).
Proof.
  intros Hpoll. split.
  - intros st. rewrite iteration_run.
    destruct (sleep_accepts_tests _ _ Hpoll) as [-> ->].
    destruct (update_sheet_once w st) as [[[]|e] st1]; [done|].
    cbv zeta. by rewrite add_events_app.
  - intros n st.
    destruct (main_loop_spec w n Hpoll st) as (c & tr & Hrun & Hs).
    rewrite (events_of_extends _ _ _ _ _ Hrun), Hrun. by split.
Qed.

Lemma scheduler_keeps_running_witness :
  fst (main_loop down_world 3 warm_state) = Ok tt ∧
  sleeps (events_of (main_loop down_world 3) warm_state)
  = replicate 3 (EvSleep (POLL_INTERVAL_SECS down_world)).
Proof.
  assert (Hpoll : sleep_accepts down_world (POLL_INTERVAL_SECS down_world))
    by (split; vm_compute; discriminate).
  exact (proj2 (scheduler_keeps_running down_world Hpoll) 3%nat warm_state).
Defined.

(** C8 as stated fails: with a negative poll interval the sleep that ends
    the first turn raises [ValueError] outside the [try], and the loop is
    left. *)
Lemma never_exits_as_stated_fails : ¬ never_exits_as_stated.
Proof.
  intros H. specialize (H negative_poll_world 1%nat init_state).
  vm_compute in H. discriminate H.
Qed.

(** ** C9: keys of the cache are never empty *)

(** C9. A catalog entry whose base or quote code is empty after the
    stripping is left out of the rebuilt mapping without any error: the
    refresh builds what it would build from the catalog without that entry.
    Hence every refresh keeps, and every run of the program from its
    initial state has, a pair cache whose keys all have a non-empty base
    and a non-empty quote. *)
Theorem refresh_omits_empty_codes :
  (∀ l1 l2 p meta base quote m0,
     entry_key meta = Ok (base, quote) →
     base = "" ∨ quote = "" →
     build_loop (l1 ++ (p, meta) :: l2) m0 = build_loop (l1 ++ l2) m0) ∧
  (∀ w st,
     keys_nonempty (_pairs_by_base_quote (pairs_cache st)) →
     keys_nonempty
       (_pairs_by_base_quote (pairs_cache (snd (refresh_if_needed w st))))) ∧
  (∀ w n,
     keys_nonempty
       (_pairs_by_base_quote (pairs_cache (snd (main_loop w n init_state))))).
Proof.
  split; [|split].
  - intros l1 l2 p meta base quote m0. apply build_loop_skip.
  - intros w st Hinv.
    destruct (refresh_if_needed_spec w st) as (res & c & tr & -> & _ & Hc).
    by apply Hc.
  - intros w n. apply main_loop_keys_nonempty. apply keys_nonempty_empty.
Qed.

Lemma refresh_omits_empty_codes_witness :
  build_loop ([("XXBTZUSD", meta_of "XXBT" "ZUSD")]
                ++ ("ZZZ", meta_of "ZZ" "ZUSD") :: [("XETHZUSD", meta_of "XETH" "ZUSD")]) ∅
  = build_loop ([("XXBTZUSD", meta_of "XXBT" "ZUSD")]
                  ++ [("XETHZUSD", meta_of "XETH" "ZUSD")]) ∅.
Proof.
  apply (proj1 refresh_omits_empty_codes
           [("XXBTZUSD", meta_of "XXBT" "ZUSD")] [("XETHZUSD", meta_of "XETH" "ZUSD")]
           "ZZZ" (meta_of "ZZ" "ZUSD") "" "USD" ∅).
  - reflexivity.
  - left. reflexivity.
Defined.

(** * Further properties of the code *)

(** ** Case and white space in symbols *)

Lemma upper_char_idem c : upper_char (upper_char c) = upper_char c.
Proof. by destruct c as [[] [] [] [] [] [] [] []]. Qed.

Lemma is_py_space_upper c : is_py_space (upper_char c) = is_py_space c.
Proof. by destruct c as [[] [] [] [] [] [] [] []]. Qed.

Lemma py_upper_idem s : py_upper (py_upper s) = py_upper s.
Proof. induction s as [|c r IH]; simpl; [done|]. by rewrite upper_char_idem, IH. Qed.

Lemma py_upper_lstrip s : py_upper (lstrip s) = lstrip (py_upper s).
Proof.
  induction s as [|c r IH]; simpl; [done|].
  rewrite is_py_space_upper. by destruct (is_py_space c).
Qed.

Lemma py_upper_rstrip s : py_upper (rstrip s) = rstrip (py_upper s).
Proof.
  induction s as [|c r IH]; simpl; [done|].
  rewrite <- IH, is_py_space_upper.
  destruct (rstrip r); simpl; [|done]. by destruct (is_py_space c).
Qed.

Lemma py_upper_strip s : py_upper (py_strip s) = py_strip (py_upper s).
Proof. unfold py_strip. by rewrite py_upper_rstrip, py_upper_lstrip. Qed.

Lemma rstrip_idem s : rstrip (rstrip s) = rstrip s.
Proof.
  induction s as [|c r IH]; simpl; [done|].
  destruct (rstrip r) as [|d r'] eqn:Hr.
  - destruct (is_py_space c) eqn:Hc; simpl; [done|]. by rewrite Hc.
  - change (rstrip (String c (String d r')))
      with (match rstrip (String d r') with
            | EmptyString => if is_py_space c then EmptyString else String c EmptyString
            | x => String c x
            end).
    by rewrite IH.
Qed.

Lemma lstrip_head s :
  match lstrip s with
  | EmptyString => True
  | String c _ => is_py_space c = false
  end.
Proof.
  induction s as [|c r IH]; simpl; [done|].
  by destruct (is_py_space c) eqn:Hc; [|simpl].
Qed.

Lemma lstrip_rstrip_lstrip s : lstrip (rstrip (lstrip s)) = rstrip (lstrip s).
Proof.
  pose proof (lstrip_head s) as Hh.
  destruct (lstrip s) as [|c r]; [done|].
  simpl. destruct (rstrip r); rewrite ?Hh; simpl; by rewrite ?Hh.
Qed.

Lemma py_strip_idem s : py_strip (py_strip s) = py_strip s.
Proof. unfold py_strip. by rewrite lstrip_rstrip_lstrip, rstrip_idem. Qed.

Lemma canonical_fixed s :
  py_strip (py_upper (py_strip (py_upper s))) = py_strip (py_upper s).
Proof. by rewrite py_upper_strip, py_upper_idem, py_strip_idem. Qed.

Lemma alias_entries k v :
  BASE_ALIASES !! k = Some v →
  (k, v) ∈ [ ("BTC", "XBT"); ("XBT", "XBT"); ("DOGE", "XDG"); ("XDG", "XDG");
             ("BITCOIN", "XBT"); ("ETHEREUM", "ETH"); ("ETH", "ETH");
             ("ADA", "ADA"); ("CARDANO", "ADA"); ("XRP", "XRP"); ("RIPPLE", "XRP");
             ("SOL", "SOL"); ("SOLANA", "SOL"); ("LTC", "LTC"); ("LITECOIN", "LTC");
             ("BCH", "BCH"); ("BITCOIN CASH", "BCH") ].
Proof. unfold BASE_ALIASES. apply elem_of_list_to_map_2. Qed.

Ltac alias_cases H :=
  apply alias_entries in H;
  repeat (apply elem_of_cons in H as [[= -> ->]|H]; [try reflexivity|]);
  try (by apply elem_of_nil in H).

(** X1. The symbol normalizer is idempotent: the code it returns for any
    input is returned unchanged when fed back, be it an alias target or an
    unknown symbol passed through upper-cased and stripped. *)
Theorem normalize_base_idempotent (base_input : string) :
  normalize_base (normalize_base base_input) = normalize_base base_input.
Proof.
  unfold normalize_base at 2 3.
  remember (py_strip (py_upper base_input)) as k eqn:Hk.
  destruct (BASE_ALIASES !! k) as [v|] eqn:Ha; simpl.
  - clear Hk. alias_cases Ha.
  - subst k. unfold normalize_base. by rewrite canonical_fixed, Ha.
Qed.

(** X2. [find_pair] and the normalizer ignore letter case and surrounding
    white space: upper-casing or stripping the base or the quote beforehand
    changes no answer. *)
Theorem find_pair_ignores_case_and_space (self : KrakenPairsCache)
    (base_input quote : string) :
  find_pair self (py_upper base_input) quote = find_pair self base_input quote ∧
  find_pair self (py_strip base_input) quote = find_pair self base_input quote ∧
  find_pair self base_input (py_upper quote) = find_pair self base_input quote ∧
  find_pair self base_input (py_strip quote) = find_pair self base_input quote ∧
  normalize_base (py_upper base_input) = normalize_base base_input ∧
  normalize_base (py_strip base_input) = normalize_base base_input.
Proof.
  unfold find_pair, normalize_base.
  by rewrite !py_upper_idem, !py_upper_strip, !py_strip_idem.
Qed.

(** ** The rebuilt mapping, key by key *)

Lemma has_char_remove_keep c d s :
  Ascii.eqb c d = false → has_char c (remove_char d s) = has_char c s.
Proof.
  intros Hcd. induction s as [|a r IH]; simpl; [done|].
  destruct (Ascii.eqb a d) eqn:Had; simpl; [|by rewrite IH].
  apply Ascii.eqb_eq in Had as ->.
  rewrite IH. by rewrite Ascii.eqb_sym, Hcd.
Qed.

Lemma stripped_code_clean meta field s :
  stripped_code meta field = Ok s → code_clean s.
Proof.
  intros Hs. split; [by apply (stripped_code_no_X meta field)|].
  revert Hs. unfold stripped_code, py_get_default, py_get, py_replace. unfold_result.
  destruct meta; try discriminate.
  destruct (default (JStr "") (assoc_get field fields)); try discriminate.
  intros [= <-]. apply has_char_remove_same.
Qed.

Lemma stripped_code_ok meta field :
  match stripped_code meta field with
  | Ok _ => field_ok meta field = true
  | Raise e => e = AttributeError ∧ field_ok meta field = false
  end.
Proof.
  unfold stripped_code, py_get_default, py_get, py_replace, field_ok. unfold_result.
  destruct meta; try done.
  destruct (assoc_get field fields) as [[]|]; by simpl.
Qed.

Lemma build_loop_keys_clean items :
  ∀ m0 m, build_loop items m0 = Ok m → keys_clean m0 → keys_clean m.
Proof.
  induction items as [|[p meta] rest IH]; intros m0 m Hrun Hinv; simpl in *.
  - by injection Hrun as <-.
  - unfold_result.
    destruct (stripped_code meta "base") as [b|] eqn:Hb; [|done].
    destruct (stripped_code meta "quote") as [q|] eqn:Hq; [|done].
    apply (IH _ _ Hrun).
    destruct (str_truthy b && str_truthy q); [|done].
    intros b' q' p' Hl.
    destruct (decide ((b, q) = (b', q'))) as [[= <- <-]|Hne].
    + split; [by apply (stripped_code_clean meta "base")
             |by apply (stripped_code_clean meta "quote")].
    + rewrite lookup_insert_ne in Hl by done. by apply (Hinv _ _ p').
Qed.

Lemma keys_clean_empty : keys_clean ∅.
Proof. intros b q p Hl. by rewrite lookup_empty in Hl. Qed.

Lemma catalog_mapping_inv (P : gmap (string * string) string → Prop) :
  (∀ items m, build_loop items ∅ = Ok m → P m) →
  ∀ r m, catalog_mapping r = Ok m → P m.
Proof.
  intros HP r m.
  unfold catalog_mapping, build_mapping, py_items. unfold_result.
  destruct (raise_for_status r); [|done].
  destruct (response_json r) as [data|]; [|done].
  destruct (check_error _ data); [|done].
  destruct (py_getitem data (JStr "result")) as [pairs|]; [|done].
  destruct pairs; try done. apply HP.
Qed.

Lemma catalog_mapping_keys_clean r m : catalog_mapping r = Ok m → keys_clean m.
Proof.
  apply (catalog_mapping_inv keys_clean).
  intros items m' Hb. exact (build_loop_keys_clean _ _ _ Hb keys_clean_empty).
Qed.

(** X3. The mapping a refresh builds from a catalog is known key by key: a
    key with a non-empty base and quote is mapped to the pair identifier of
    the last catalog entry whose stripped codes are that key (later entries
    overwrite earlier ones), and to nothing if there is none; a key with an
    empty part is never present. *)
Theorem rebuilt_mapping_lookup (items : list (string * json))
    (m : gmap (string * string) string) (key : string * string) :
  build_mapping (JObj items) = Ok m →
  m !! key = if str_truthy key.1 && str_truthy key.2
             then last_pair_for key items
             else None.
Proof.
  intros Hb. change (build_loop items ∅ = Ok m) in Hb.
  destruct (str_truthy key.1 && str_truthy key.2) eqn:Hk.
  - rewrite (build_loop_lookup _ _ _ key Hb Hk), lookup_empty.
    by destruct (last_pair_for key items).
  - destruct (m !! key) as [p|] eqn:Hl; [|done]. destruct key as [b q].
    destruct (build_loop_keys_nonempty _ _ _ Hb keys_nonempty_empty b q p Hl) as [Hb' Hq'].
    simpl in Hk. by destruct b, q.
Qed.

Lemma rebuilt_mapping_lookup_witness :
  demo_mapping !! ("ETH", "USD")
  = if str_truthy ("ETH", "USD").1 && str_truthy ("ETH", "USD").2
    then last_pair_for ("ETH", "USD") demo_catalog
    else None.
Proof.
  apply (rebuilt_mapping_lookup demo_catalog demo_mapping ("ETH", "USD")).
  vm_compute. reflexivity.
Defined.

(** X4. Building the mapping is all or nothing in the shape of the
    catalog: it succeeds when every entry is an object whose base and
    quote, where present, are strings, and raises [AttributeError] as soon
    as one entry is not, whatever the other entries are. *)
Theorem build_loop_ok_iff_entries_ok (items : list (string * json))
    (m0 : gmap (string * string) string) :
  if forallb (λ e, entry_ok e.2) items
  then ∃ m, build_loop items m0 = Ok m
  else build_loop items m0 = Raise AttributeError.
Proof.
  revert m0. induction items as [|[p meta] rest IH]; intros m0; simpl.
  - by exists m0.
  - unfold entry_ok. unfold_result.
    pose proof (stripped_code_ok meta "base") as Hb.
    pose proof (stripped_code_ok meta "quote") as Hq.
    destruct (stripped_code meta "base") as [b|e]; [|by destruct Hb as [-> ->]].
    rewrite Hb. simpl.
    destruct (stripped_code meta "quote") as [q|e]; [|by destruct Hq as [-> ->]].
    rewrite Hq. simpl. apply IH.
Qed.

(** X5. In a cache whose keys hold no ["X"] and no ["Z"], as every cache
    built by a refresh is, a symbol whose upper-cased, stripped form
    contains ["Z"] resolves to nothing, and so does every symbol when the
    quote contains ["X"]: none of the keys [find_pair] tries can be
    present. *)
Theorem find_pair_misses_Z_symbols_and_X_quotes (self : KrakenPairsCache)
    (base_input quote : string) :
  keys_clean (_pairs_by_base_quote self) →
  has_char "Z" (py_strip (py_upper base_input)) = true
  ∨ has_char "X" (py_strip (py_upper quote)) = true →
  find_pair self base_input quote = None.
Proof.
  intros Hclean Hbad.
  assert (Hmiss : ∀ b q, has_char "Z" b = true ∨ has_char "X" q = true →
                         _pairs_by_base_quote self !! (b, q) = None).
  { intros b q Hbq. destruct (_ !! (b, q)) as [p|] eqn:Hl; [|done].
    destruct (Hclean b q p Hl) as [[_ HbZ] [HqX _]].
    destruct Hbq; congruence. }
  unfold find_pair, normalize_base.
  set (t := py_strip (py_upper base_input)) in *.
  set (qn := py_strip (py_upper quote)) in *.
  assert (Hnorm : has_char "Z" (default t (BASE_ALIASES !! t)) = true
                  ∨ has_char "X" qn = true).
  { destruct Hbad as [HZ|HX]; [left|by right].
    destruct (BASE_ALIASES !! t) as [v|] eqn:Ha; [|done].
    clearbody t. alias_cases Ha; discriminate HZ. }
  rewrite (Hmiss _ _ Hnorm). simpl. rewrite (Hmiss _ _ Hnorm).
  rewrite (Hmiss (remove_char "X" _) (remove_char "Z" qn)).
  2:{ destruct Hnorm as [HZ|HX]; [left|right];
        by rewrite has_char_remove_keep. }
  by rewrite (Hmiss t qn Hbad).
Qed.

Lemma demo_mapping_clean : keys_clean demo_mapping.
Proof.
  apply (build_loop_keys_clean demo_catalog ∅); [|apply keys_clean_empty].
  vm_compute. reflexivity.
Defined.

Lemma find_pair_misses_Z_symbols_and_X_quotes_witness :
  find_pair (cache_of demo_mapping) "zec" "USD" = None.
Proof.
  apply (find_pair_misses_Z_symbols_and_X_quotes (cache_of demo_mapping) "zec" "USD").
  - exact demo_mapping_clean.
  - left. reflexivity.
Defined.

(** ** One invocation, step by step *)

Lemma update_sheet_once_run w st :
  update_sheet_once w st =
    match sh_worksheet w (trace st) (WORKSHEET_NAME w) with
    | Some e => (Raise e, add_events st [EvWorksheet (WORKSHEET_NAME w)])
    | None =>
        match sheet_reply w st with
        | Raise e => (Raise e, after_read w st)
        | Ok col =>
            if Z.of_nat (length col) <=? 1
            then (Ok tt, add_events (after_read w st)
                           [EvLog INFO "No tickers found (only header or empty)."])
            else
              match refresh_if_needed w (after_read w st) with
              | (Raise e, st3) => (Raise e, st3)
              | (Ok _, st3) =>
                  match stage_rows w 0 (tail col) [] st3 with
                  | (Raise e, st4) => (Raise e, st4)
                  | (Ok [], st4) => (Ok tt, st4)
                  | (Ok cells, st4) =>
                      match ws_update_cells w (trace st4) cells with
                      | Some e => (Raise e, add_events st4 [EvUpdateCells cells])
                      | None =>
                          (Ok tt, add_events st4 [EvUpdateCells cells;
                                                  EvLog INFO "Updated %d price cells."])
                      end
                  end
              end
        end
    end.
Proof.
  unfold update_sheet_once, open_worksheet, col_values, call, of_option_exn,
    after_read, add_events.
  unfold_M. simpl.
  destruct (sh_worksheet w (trace st) (WORKSHEET_NAME w)) as [e|]; [done|].
  fold (sheet_reply w st). rewrite <- !app_assoc. simpl.
  destruct (sheet_reply w st) as [col|e]; [|done].
  destruct (Z.of_nat (length col) <=? 1).
  { unfold log, emit. simpl. by rewrite <- !app_assoc. }
  destruct (refresh_if_needed w _) as [[[]|e] st3]; [|done].
  destruct (stage_rows w 0 (tail col) [] st3) as [[cells|e] st4]; [|done].
  destruct cells as [|c0 cells]; [done|].
  unfold log, emit. simpl.
  destruct (ws_update_cells w (trace st4) (c0 :: cells)); simpl; [done|].
  by rewrite <- !app_assoc.
Qed.

(** X6. On a worksheet whose first column holds only the header, or
    nothing, an invocation returns normally after the worksheet lookup, the
    column read and one log line: it sends no request to the provider, not
    even the catalog refresh, writes nothing, and leaves the pair cache as
    it was. *)
Theorem header_only_sheet_is_left_alone (w : world) (st : state)
    (col : list (option string)) :
  sh_worksheet w (trace st) (WORKSHEET_NAME w) = None →
  sheet_reply w st = Ok col →
  (length col ≤ 1)%nat →
  update_sheet_once w st
  = (Ok tt, add_events st [EvWorksheet (WORKSHEET_NAME w); EvColValues 1;
                           EvLog INFO "No tickers found (only header or empty)."]) ∧
  fetches (events_of (update_sheet_once w) st) = [] ∧
  count_writes (events_of (update_sheet_once w) st) = 0%nat ∧
  pairs_cache (snd (update_sheet_once w st)) = pairs_cache st.
Proof.
  intros Hws Hcol Hlen.
  assert (Hrun : update_sheet_once w st
                 = (Ok tt, add_events st [EvWorksheet (WORKSHEET_NAME w); EvColValues 1;
                      EvLog INFO "No tickers found (only header or empty)."])).
  { rewrite update_sheet_once_run, Hws, Hcol.
    replace (Z.of_nat (length col) <=? 1) with true by (symmetry; apply Z.leb_le; lia).
    unfold after_read. by rewrite add_events_app. }
  split; [done|].
  rewrite (events_of_extends _ _ _ _ _ Hrun), Hrun. by repeat split.
Qed.

Lemma header_only_sheet_is_left_alone_witness :
  update_sheet_once (make_world 60 down_get None [Some "Ticker"]) warm_state
  = (Ok tt, add_events warm_state
              [EvWorksheet "tab"; EvColValues 1;
               EvLog INFO "No tickers found (only header or empty)."]) ∧
  fetches (events_of (update_sheet_once (make_world 60 down_get None [Some "Ticker"]))
             warm_state) = [] ∧
  count_writes (events_of (update_sheet_once (make_world 60 down_get None [Some "Ticker"]))
                  warm_state) = 0%nat ∧
  pairs_cache (snd (update_sheet_once (make_world 60 down_get None [Some "Ticker"])
                      warm_state))
  = pairs_cache warm_state.
Proof.
  apply (header_only_sheet_is_left_alone
           (make_world 60 down_get None [Some "Ticker"]) warm_state [Some "Ticker"]).
  - reflexivity.
  - reflexivity.
  - simpl. lia.
Defined.

(** X7. When the pair cache is empty or stale and the catalog request
    fails, in the transport or in the reply, an invocation on a sheet with
    rows below the header raises that failure after the catalog request: no
    ticker is requested, nothing is staged or written, not even ["ERR"]
    cells, and the cache, stale mapping included, is kept but not used. *)
Theorem failed_refresh_abandons_invocation (w : world) (st : state)
    (col : list (option string)) (e : exn) :
  sh_worksheet w (trace st) (WORKSHEET_NAME w) = None →
  sheet_reply w st = Ok col →
  (1 < length col)%nat →
  is_fresh w (pairs_cache st) (time_time w (trace (after_read w st))) = false →
  catalog_outcome w (after_read w st) = Raise e →
  update_sheet_once w st
  = (Raise e, add_events st [EvWorksheet (WORKSHEET_NAME w); EvColValues 1;
                             refresh_log; refresh_get w]) ∧
  count_writes (events_of (update_sheet_once w) st) = 0%nat ∧
  fetches (events_of (update_sheet_once w) st) = [refresh_get w].
Proof.
  intros Hws Hcol Hlen Hfresh Hcat.
  assert (Hrun : update_sheet_once w st
                 = (Raise e, add_events st [EvWorksheet (WORKSHEET_NAME w); EvColValues 1;
                                            refresh_log; refresh_get w])).
  { rewrite update_sheet_once_run, Hws, Hcol.
    replace (Z.of_nat (length col) <=? 1) with false by (symmetry; apply Z.leb_gt; lia).
    rewrite refresh_if_needed_run.
    change (pairs_cache (after_read w st)) with (pairs_cache st). rewrite Hfresh.
    unfold catalog_outcome in Hcat. rewrite Hcat.
    unfold after_read. by rewrite add_events_app. }
  split; [done|].
  rewrite (events_of_extends _ _ _ _ _ Hrun). by split.
Qed.

Lemma failed_refresh_abandons_invocation_witness :
  update_sheet_once down_world warm_state
  = (Raise RequestException,
     add_events warm_state [EvWorksheet (WORKSHEET_NAME down_world); EvColValues 1;
                            refresh_log; refresh_get down_world]) ∧
  count_writes (events_of (update_sheet_once down_world) warm_state) = 0%nat ∧
  fetches (events_of (update_sheet_once down_world) warm_state)
  = [refresh_get down_world].
Proof.
  apply (failed_refresh_abandons_invocation down_world warm_state demo_sheet
           RequestException).
  - reflexivity.
  - reflexivity.
  - simpl. lia.
  - vm_compute. reflexivity.
  - reflexivity.
Defined.

(** ** Requests and values of the staging loop *)

Lemma stage_row_full w idx raw cells st :
  ∃ new tr,
    stage_row w idx raw cells st = (Ok (cells ++ new), add_events st tr) ∧
    quiet tr ∧
    fetches tr = (if resolvable w (pairs_cache st) raw
                  then [row_request w (pairs_cache st) raw] else []) ∧
    Forall (λ c, price_or_marker (cell_value_of c)) new.
Proof.
  rewrite stage_row_run. unfold resolvable, row_request.
  destruct (str_truthy (symbol_of raw)); simpl.
  - destruct (pair_missing _); simpl.
    { eexists [_], _. repeat split; try done; repeat constructor; by left. }
    case_result.
    + eexists [_], _. repeat split; try done; by repeat constructor.
    + eexists [_], _. repeat split; try done; repeat constructor; by right.
  - exists [], []. rewrite app_nil_r, add_events_nil. by repeat split.
Qed.

Lemma stage_rows_full w inputs :
  ∀ idx cells st,
    ∃ new tr,
      stage_rows w idx inputs cells st = (Ok (cells ++ new), add_events st tr) ∧
      quiet tr ∧
      fetches tr = map (row_request w (pairs_cache st))
                     (filter (resolvable w (pairs_cache st)) inputs) ∧
      Forall (λ c, price_or_marker (cell_value_of c)) new.
Proof.
  induction inputs as [|raw rest IH]; intros idx cells st; simpl.
  - exists [], []. rewrite app_nil_r, add_events_nil. by repeat split.
  - destruct (stage_row_full w idx raw cells st) as (new1 & tr1 & Hrow & Hq1 & Hf1 & Hv1).
    destruct (IH (idx + 1) (cells ++ new1) (add_events st tr1))
      as (new2 & tr2 & Hrows & Hq2 & Hf2 & Hv2).
    exists (new1 ++ new2), (tr1 ++ tr2).
    unfold_M. rewrite Hrow, Hrows, add_events_app, <- app_assoc.
    split; [done|]. split; [by apply quiet_app|]. split; [|by apply Forall_app].
    unfold fetches in *. rewrite filter_app, Hf1, Hf2.
    change (pairs_cache (add_events st tr1)) with (pairs_cache st).
    rewrite filter_cons.
    by destruct (resolvable w (pairs_cache st) raw).
Qed.

(** X8. The staging loop sends exactly one ticker request for each row
    that is resolvable in the cache it starts with (non-blank symbol, pair
    found), in row order and for the pair [find_pair] gave, and no request
    for any other row; a failing request does not stop the later ones. *)
Theorem stage_rows_fetches_resolvable_rows (w : world) (idx : Z)
    (inputs : list (option string)) (cells : list Cell) (st : state) :
  fetches (events_of (stage_rows w idx inputs cells) st)
  = map (row_request w (pairs_cache st))
      (filter (resolvable w (pairs_cache st)) inputs).
Proof.
  destruct (stage_rows_full w inputs idx cells st) as (new & tr & Hrun & _ & Hf & _).
  by rewrite (events_of_extends _ _ _ _ _ Hrun).
Qed.

Lemma fetches_length_le w c inputs :
  ∀ idx,
    (length (filter (resolvable w c) inputs) ≤ length (nonblank_rows idx inputs))%nat.
Proof.
  induction inputs as [|raw rest IH]; intros idx; simpl; [done|].
  rewrite filter_cons. specialize (IH (idx + 1)).
  destruct (resolvable w c raw) eqn:Hr; simpl.
  - unfold resolvable in Hr. apply andb_true_iff in Hr as [-> _]. simpl. lia.
  - destruct (str_truthy (symbol_of raw)); simpl; lia.
Qed.

Lemma refresh_if_needed_fetches w st :
  ∃ res c tr,
    refresh_if_needed w st = (res, {| pairs_cache := c; trace := trace st ++ tr |}) ∧
    quiet tr ∧
    fetches tr = (if is_fresh w (pairs_cache st) (time_time w (trace st))
                  then [] else [refresh_get w]) ∧
    (_pairs_by_base_quote c = _pairs_by_base_quote (pairs_cache st) ∨
     ∃ r, catalog_mapping r = Ok (_pairs_by_base_quote c)).
Proof.
  rewrite refresh_if_needed_run.
  destruct (is_fresh _ _ _).
  { exists (Ok tt), (pairs_cache st), []. rewrite app_nil_r. destruct st.
    repeat split; try done. by left. }
  unfold_result.
  destruct (catalog_reply w st) as [r|e]; simpl.
  - destruct (catalog_mapping r) as [m|e] eqn:Hm.
    + eexists _, _, _. split; [reflexivity|]. repeat split; try done.
      right. by exists r.
    + eexists _, _, _. split; [reflexivity|]. repeat split; try done. by left.
  - eexists _, _, _. split; [reflexivity|]. repeat split; try done. by left.
Qed.

Lemma quiet_writes_ok tr : quiet tr → writes_prices_or_markers tr.
Proof.
  unfold quiet, writes_prices_or_markers.
  induction tr as [|ev tr IH]; simpl; [constructor|].
  intros [Hev Htr]%andb_true_iff. constructor; [by destruct ev|by apply IH].
Qed.

Lemma fetches_app tr1 tr2 : fetches (tr1 ++ tr2) = fetches tr1 ++ fetches tr2.
Proof. unfold fetches. apply filter_app. Qed.

Lemma update_sheet_once_full w st :
  ∃ res c tr,
    update_sheet_once w st = (res, {| pairs_cache := c; trace := trace st ++ tr |}) ∧
    kept_or_rebuilt (_pairs_by_base_quote (pairs_cache st)) (_pairs_by_base_quote c) ∧
    writes_prices_or_markers tr ∧
    match sheet_reply w st with
    | Ok col => (length (fetches tr) ≤ 1 + length (nonblank_rows 0 (tail col)))%nat
    | Raise _ => fetches tr = []
    end ∧
    (∀ e, res = Raise e →
          sh_worksheet w (trace st) (WORKSHEET_NAME w) = Some e ∨
          sheet_reply w st = Raise e ∨
          fst (refresh_if_needed w (after_read w st)) = Raise e ∨
          ∃ tr' cells, ws_update_cells w tr' cells = Some e).
Proof.
  rewrite update_sheet_once_run.
  destruct (sh_worksheet w (trace st) (WORKSHEET_NAME w)) as [e|] eqn:Hws.
  { eexists _, _, [_]. split; [reflexivity|]. split; [by left|].
    split; [by repeat constructor|]. split.
    - destruct (sheet_reply w st); simpl; [lia|done].
    - intros e' [= <-]. by left. }
  destruct (sheet_reply w st) as [col|e] eqn:Hcol.
  2:{ eexists _, _, [_; _]. split; [reflexivity|]. split; [by left|].
      split; [by repeat constructor|]. split; [done|].
      intros e' [= <-]. by right; left. }
  destruct (Z.of_nat (length col) <=? 1).
  { unfold after_read. rewrite add_events_app.
    eexists _, _, [_; _; _]. split; [reflexivity|]. split; [by left|].
    split; [by repeat constructor|]. split; [simpl; lia|done]. }
  destruct (refresh_if_needed_fetches w (after_read w st))
    as (res1 & c1 & tr1 & Hr & Hq1 & Hf1 & Hprov).
  rewrite Hr. simpl in Hprov |- *.
  assert (Hlen1 : (length (fetches tr1) ≤ 1)%nat).
  { rewrite Hf1. destruct (is_fresh _ _ _); simpl; lia. }
  destruct res1 as [[]|e].
  2:{ exists (Raise e), c1, ([EvWorksheet (WORKSHEET_NAME w); EvColValues 1] ++ tr1).
      split; [trace_eq|]. split; [done|].
      split; [by apply Forall_app; split; [repeat constructor|apply quiet_writes_ok]|].
      split; [rewrite fetches_app; simpl; lia|].
      intros e' [= <-]. by right; right; left. }
  match goal with
  | |- context [stage_rows w 0 (tail col) [] ?s] =>
      destruct (stage_rows_full w (tail col) 0 [] s)
        as (new & tr2 & Hs & Hq2 & Hf2 & Hv);
      rewrite Hs
  end.
  simpl in Hf2 |- *.
  assert (Hlen2 : (length (fetches tr2) ≤ length (nonblank_rows 0 (tail col)))%nat).
  { rewrite Hf2, length_map. apply fetches_length_le. }
  unfold add_events. simpl.
  assert (Hbase : writes_prices_or_markers
                    ([EvWorksheet (WORKSHEET_NAME w); EvColValues 1] ++ tr1 ++ tr2)).
  { apply Forall_app. split; [by repeat constructor|].
    apply quiet_writes_ok. by apply quiet_app. }
  assert (Hfetch : (length (fetches ([EvWorksheet (WORKSHEET_NAME w); EvColValues 1]
                                       ++ tr1 ++ tr2))
                    ≤ 1 + length (nonblank_rows 0 (tail col)))%nat).
  { rewrite !fetches_app, !length_app. simpl. lia. }
  destruct new as [|c0 new].
  { exists (Ok tt), c1, ([EvWorksheet (WORKSHEET_NAME w); EvColValues 1] ++ tr1 ++ tr2).
    split; [trace_eq|]. by repeat split. }
  destruct (ws_update_cells w _ (c0 :: new)) as [e|] eqn:Hw; simpl.
  - exists (Raise e), c1,
      (([EvWorksheet (WORKSHEET_NAME w); EvColValues 1] ++ tr1 ++ tr2)
         ++ [EvUpdateCells (c0 :: new)]).
    split; [trace_eq|]. split; [done|].
    split; [apply Forall_app; split; [exact Hbase|]; by repeat (constructor; [exact Hv|])|].
    split; [rewrite fetches_app, length_app;
            change (fetches [EvUpdateCells (c0 :: new)]) with (@nil event);
            cbn [length]; lia|].
    intros e' [= <-]. right; right; right. eauto.
  - exists (Ok tt), c1,
      (([EvWorksheet (WORKSHEET_NAME w); EvColValues 1] ++ tr1 ++ tr2)
         ++ [EvUpdateCells (c0 :: new); EvLog INFO "Updated %d price cells."]).
    split; [trace_eq|]. split; [done|].
    split; [apply Forall_app; split; [exact Hbase|];
            constructor; [exact Hv|by repeat constructor]|].
    split; [rewrite fetches_app, length_app;
            change (fetches [EvUpdateCells (c0 :: new);
                             EvLog INFO "Updated %d price cells."])
              with (@nil event);
            cbn [length]; lia|done].
Qed.

(** X9. Rows never abort the batch: when the worksheet lookup, the column
    read, the refresh and the batch write do not raise, the invocation
    returns normally whatever the ticker endpoint replies or raises. *)
Theorem ticker_failures_never_abort (w : world) (st : state)
    (col : list (option string)) :
  sh_worksheet w (trace st) (WORKSHEET_NAME w) = None →
  sheet_reply w st = Ok col →
  fst (refresh_if_needed w (after_read w st)) = Ok tt →
  (∀ tr cells, ws_update_cells w tr cells = None) →
  fst (update_sheet_once w st) = Ok tt.
Proof.
  intros Hws Hcol Hrefresh Hwrite.
  destruct (update_sheet_once_full w st) as (res & c & tr & Hrun & _ & _ & _ & Hsrc).
  rewrite Hrun. simpl. destruct res as [[]|e]; [done|].
  destruct (Hsrc e eq_refl) as [H|[H|[H|(tr' & cells & H)]]];
    [congruence..|rewrite Hwrite in H; discriminate H].
Qed.

Lemma ticker_failures_never_abort_witness :
  fst (update_sheet_once failing_ticker_world init_state) = Ok tt.
Proof.
  apply (ticker_failures_never_abort failing_ticker_world init_state demo_sheet).
  - reflexivity.
  - reflexivity.
  - vm_compute. reflexivity.
  - intros tr cells. reflexivity.
Defined.

(** X10. One invocation sends at most one request more than there are
    non-blank rows below the header (the catalog refresh and one ticker
    request per row), and none at all when the column read raises. *)
Theorem invocation_request_bound (w : world) (st : state) :
  match sheet_reply w st with
  | Ok col =>
      (length (fetches (events_of (update_sheet_once w) st))
       ≤ 1 + length (nonblank_rows 0 (tail col)))%nat
  | Raise _ => fetches (events_of (update_sheet_once w) st) = []
  end.
Proof.
  destruct (update_sheet_once_full w st) as (res & c & tr & Hrun & _ & _ & Hf & _).
  by rewrite (events_of_extends _ _ _ _ _ Hrun).
Qed.

(** ** Whole runs of the loop *)

Lemma no_write_writes_ok evs :
  forallb (λ ev, negb (is_write ev)) evs = true → writes_prices_or_markers evs.
Proof.
  unfold writes_prices_or_markers.
  induction evs as [|ev evs IH]; simpl; [constructor|].
  intros [Hev Hevs]%andb_true_iff. constructor; [by destruct ev|by apply IH].
Qed.

Lemma kept_or_rebuilt_trans m0 m1 m2 :
  kept_or_rebuilt m0 m1 → kept_or_rebuilt m1 m2 → kept_or_rebuilt m0 m2.
Proof.
  intros [->|H1] [->|H2]; [by left|by right|by right|by right].
Qed.

Lemma update_sheet_once_counts w st :
  ∃ res c tr,
    update_sheet_once w st = (res, {| pairs_cache := c; trace := trace st ++ tr |}) ∧
    (count_reads tr ≤ 1)%nat ∧ (count_writes tr ≤ 1)%nat ∧ sleeps tr = [].
Proof.
  destruct (update_sheet_once_no_sleep w st) as (res & c & tr & Hrun & Hs & _).
  destruct (update_sheet_once_shape w st) as (res' & c' & tr' & Hrun' & _ & Hshape).
  rewrite Hrun in Hrun'. injection Hrun' as _ _ Htr. apply app_inv_head in Htr as <-.
  exists res, c, tr. split; [done|]. split; [|split; [|done]].
  - destruct Hshape as [[_ ->] | (_ & q & wr & -> & Hq & Hwr & _)]; [by vm_compute; lia|].
    rewrite !count_reads_cons, count_reads_app, (quiet_count_reads q Hq). simpl.
    destruct Hwr as [-> | (cells & col & q' & -> & Hq' & _)]; [by vm_compute; lia|].
    rewrite count_reads_cons, (quiet_count_reads q' Hq'). simpl. lia.
  - destruct Hshape as [[_ ->] | (_ & q & wr & -> & Hq & Hwr & _)]; [by vm_compute; lia|].
    rewrite !count_writes_cons, count_writes_app, (quiet_count_writes q Hq). simpl.
    destruct Hwr as [-> | (cells & col & q' & -> & Hq' & _)]; [by vm_compute; lia|].
    rewrite count_writes_cons, (quiet_count_writes q' Hq'). simpl. lia.
Qed.

Lemma sleep_tail w m c (tr0 tr1 : list event) :
  kept_or_rebuilt m (_pairs_by_base_quote c) →
  writes_prices_or_markers tr1 →
  (count_reads tr1 ≤ 1)%nat → (count_writes tr1 ≤ 1)%nat → sleeps tr1 = [] →
  ∃ res tr,
    (if POLL_INTERVAL_SECS w <? 0
     then (Raise ValueError, {| pairs_cache := c; trace := tr0 ++ tr1 |})
     else if sleep_limit w <? POLL_INTERVAL_SECS w
          then (Raise OverflowError, {| pairs_cache := c; trace := tr0 ++ tr1 |})
          else (Ok tt, add_events {| pairs_cache := c; trace := tr0 ++ tr1 |}
                         [EvSleep (POLL_INTERVAL_SECS w)]))
    = (res, {| pairs_cache := c; trace := tr0 ++ tr |}) ∧
    kept_or_rebuilt m (_pairs_by_base_quote c) ∧
    writes_prices_or_markers tr ∧
    (count_reads tr ≤ 1)%nat ∧ (count_writes tr ≤ 1)%nat ∧
    (length (sleeps tr) ≤ 1)%nat.
Proof.
  intros Hprov Hw Hr Hwr Hs.
  destruct (POLL_INTERVAL_SECS w <? 0);
    [|destruct (sleep_limit w <? POLL_INTERVAL_SECS w)].
  - exists (Raise ValueError), tr1. rewrite Hs. repeat split; try done. simpl. lia.
  - exists (Raise OverflowError), tr1. rewrite Hs. repeat split; try done. simpl. lia.
  - exists (Ok tt), (tr1 ++ [EvSleep (POLL_INTERVAL_SECS w)]).
    split; [unfold add_events; trace_eq|]. split; [done|].
    split; [apply Forall_app; split; [done|by apply no_write_writes_ok]|].
    rewrite count_reads_app, count_writes_app. unfold sleeps in *.
    rewrite filter_app, Hs. unfold count_reads, count_writes in *. simpl.
    repeat split; lia.
Qed.

Lemma iteration_full w st :
  ∃ res c tr,
    iteration w st = (res, {| pairs_cache := c; trace := trace st ++ tr |}) ∧
    kept_or_rebuilt (_pairs_by_base_quote (pairs_cache st)) (_pairs_by_base_quote c) ∧
    writes_prices_or_markers tr ∧
    (count_reads tr ≤ 1)%nat ∧ (count_writes tr ≤ 1)%nat ∧
    (length (sleeps tr) ≤ 1)%nat.
Proof.
  destruct (update_sheet_once_full w st) as (res & c & tr & Hrun & Hprov & Hw & _).
  destruct (update_sheet_once_counts w st) as (res' & c' & tr' & Hrun' & Hr & Hwr & Hs).
  rewrite Hrun in Hrun'. injection Hrun' as _ _ Htr. apply app_inv_head in Htr as <-.
  rewrite iteration_run, Hrun. cbv zeta.
  destruct res as [[]|e].
  - destruct (sleep_tail w _ c (trace st) tr Hprov Hw Hr Hwr Hs) as (res1 & tr1 & H1 & H2).
    exists res1, c, tr1. by rewrite H1.
  - assert (Hw' : writes_prices_or_markers (tr ++ [iteration_failed_log])).
    { apply Forall_app. split; [done|by apply no_write_writes_ok]. }
    assert (Hr' : (count_reads (tr ++ [iteration_failed_log]) ≤ 1)%nat).
    { rewrite count_reads_app. unfold count_reads in *. simpl. lia. }
    assert (Hwr' : (count_writes (tr ++ [iteration_failed_log]) ≤ 1)%nat).
    { rewrite count_writes_app. unfold count_writes in *. simpl. lia. }
    assert (Hs' : sleeps (tr ++ [iteration_failed_log]) = []).
    { unfold sleeps in *. by rewrite filter_app, Hs. }
    destruct (sleep_tail w _ c (trace st) _ Hprov Hw' Hr' Hwr' Hs')
      as (res1 & tr1 & H1 & H2).
    exists res1, c, tr1. split; [|done]. rewrite <- H1.
    unfold add_events. simpl. by rewrite <- !app_assoc.
Qed.

Lemma main_loop_full w n :
  ∀ st, ∃ res c tr,
    main_loop w n st = (res, {| pairs_cache := c; trace := trace st ++ tr |}) ∧
    kept_or_rebuilt (_pairs_by_base_quote (pairs_cache st)) (_pairs_by_base_quote c) ∧
    writes_prices_or_markers tr ∧
    (count_reads tr ≤ n)%nat ∧ (count_writes tr ≤ n)%nat ∧
    (length (sleeps tr) ≤ n)%nat.
Proof.
  induction n as [|n IH]; intros st; simpl.
  - exists (Ok tt), (pairs_cache st), []. rewrite app_nil_r. destruct st.
    repeat split; try done; [by left|constructor].
  - unfold_M.
    destruct (iteration_full w st) as (res1 & c1 & tr1 & -> & Hp1 & Hw1 & Hr1 & Hwr1 & Hs1).
    destruct res1 as [[]|e].
    2:{ exists (Raise e), c1, tr1. repeat split; try done; lia. }
    destruct (IH {| pairs_cache := c1; trace := trace st ++ tr1 |})
      as (res2 & c2 & tr2 & -> & Hp2 & Hw2 & Hr2 & Hwr2 & Hs2).
    exists res2, c2, (tr1 ++ tr2). split; [trace_eq|].
    split; [by apply (kept_or_rebuilt_trans _ _ _ Hp1)|].
    split; [by apply Forall_app|].
    rewrite count_reads_app, count_writes_app. unfold sleeps in *.
    rewrite filter_app, length_app. repeat split; lia.
Qed.

(** X11. Only prices and the two markers are ever written: in every batch
    that any run of the loop sends to the worksheet, each cell holds a
    float, ["N/A"] or ["ERR"]. *)
Theorem loop_writes_prices_or_markers (w : world) (n : nat) (st : state) :
  writes_prices_or_markers (events_of (main_loop w n) st).
Proof.
  destruct (main_loop_full w n st) as (res & c & tr & Hrun & _ & Hw & _).
  by rewrite (events_of_extends _ _ _ _ _ Hrun).
Qed.

(** X12. The loop paces the worksheet: in [n] turns the column is read at
    most [n] times, written at most [n] times, and the loop sleeps at most
    [n] times, whatever the collaborators reply. *)
Theorem loop_reads_and_writes_once_per_turn (w : world) (n : nat) (st : state) :
  (count_reads (events_of (main_loop w n) st) ≤ n)%nat ∧
  (count_writes (events_of (main_loop w n) st) ≤ n)%nat ∧
  (length (sleeps (events_of (main_loop w n) st)) ≤ n)%nat.
Proof.
  destruct (main_loop_full w n st) as (res & c & tr & Hrun & _ & _ & Hr & Hw & Hs).
  by rewrite (events_of_extends _ _ _ _ _ Hrun).
Qed.

Lemma received_refl w st : kept_or_received w st st.
Proof. split; [done|by left]. Qed.

Lemma received_frame w st st1 evs :
  kept_or_received w st st1 → kept_or_received w st (add_events st1 evs).
Proof.
  intros [Hp Hc]. split; [by apply prefix_app_r|].
  destruct Hc as [Hk|(pre & r & H1 & H2 & H3 & H4)]; [by left|].
  right. exists pre, r. split; [done|]. split; [by apply prefix_app_r|done].
Qed.

Lemma received_trans w st st1 st2 :
  kept_or_received w st st1 → kept_or_received w st1 st2 →
  kept_or_received w st st2.
Proof.
  intros [Hp1 Hc1] [Hp2 Hc2]. split; [by etrans|].
  destruct Hc2 as [Hk2|(pre & r & H1 & H2 & H3 & H4)].
  - destruct Hc1 as [Hk1|(pre & r & H1 & H2 & H3 & H4)]; [left; congruence|].
    right. exists pre, r. split; [done|]. split; [by etrans|].
    split; [done|congruence].
  - right. exists pre, r. split; [by etrans|done].
Qed.

Lemma refresh_received w st : kept_or_received w st (snd (refresh_if_needed w st)).
Proof.
  rewrite refresh_if_needed_run.
  destruct (is_fresh _ _ _); [apply received_refl|].
  unfold_result.
  destruct (catalog_reply w st) as [r|e] eqn:Hr; simpl.
  - destruct (catalog_mapping r) as [m|e] eqn:Hm; simpl.
    + split; [by apply prefix_app_r|]. right. exists (trace st), r.
      split; [done|]. split; [|done].
      exists [EvLog INFO "Loaded %d Kraken pairs"]. by rewrite <- app_assoc.
    + apply received_frame, received_refl.
  - apply received_frame, received_refl.
Qed.

Lemma update_sheet_once_received w st :
  kept_or_received w st (snd (update_sheet_once w st)).
Proof.
  rewrite update_sheet_once_run.
  destruct (sh_worksheet w (trace st) (WORKSHEET_NAME w));
    [apply received_frame, received_refl|].
  assert (Hread : kept_or_received w st (after_read w st))
    by apply received_frame, received_refl.
  destruct (sheet_reply w st) as [col|e]; [|done].
  destruct (Z.of_nat (length col) <=? 1); [by apply received_frame|].
  pose proof (refresh_received w (after_read w st)) as Href.
  destruct (refresh_if_needed w (after_read w st)) as [[[]|e] st3]; simpl in Href;
    [|by apply (received_trans _ _ _ _ Hread)].
  pose proof (received_trans _ _ _ _ Hread Href) as H3.
  destruct (stage_rows_spec w (tail col) 0 [] st3) as (new & tr & -> & _).
  simpl. destruct new as [|c0 new]; [by apply received_frame|].
  destruct (ws_update_cells w _ (c0 :: new)); simpl;
    by apply received_frame, received_frame.
Qed.

Lemma iteration_received w st : kept_or_received w st (snd (iteration w st)).
Proof.
  rewrite iteration_run.
  pose proof (update_sheet_once_received w st) as Hup.
  destruct (update_sheet_once w st) as [res st1]. simpl in Hup.
  assert (H2 : kept_or_received w st
                 match res with
                 | Ok _ => st1
                 | Raise _ => add_events st1 [iteration_failed_log]
                 end)
    by (destruct res; [done|by apply received_frame]).
  cbv zeta.
  destruct (POLL_INTERVAL_SECS w <? 0); [done|].
  destruct (sleep_limit w <? POLL_INTERVAL_SECS w); [done|].
  by apply received_frame.
Qed.

Lemma main_loop_received w n :
  ∀ st, kept_or_received w st (snd (main_loop w n st)).
Proof.
  induction n as [|n IH]; intros st; simpl; [apply received_refl|].
  unfold_M. pose proof (iteration_received w st) as Hit.
  destruct (iteration w st) as [[[]|e] st1]; simpl in *; [|done].
  by apply (received_trans _ _ _ _ Hit).
Qed.

(** X13. The cache is only ever replaced wholesale: after any number of
    turns the mapping of the cache is the one the run started with, or it
    is exactly the mapping built from one reply that the provider gave
    during the run to a catalog request recorded in the trace, and from
    nothing else. *)
Theorem loop_cache_kept_or_rebuilt (w : world) (n : nat) (st : state) :
  kept_or_received w st (snd (main_loop w n st)).
Proof. apply main_loop_received. Qed.

(** X14. No key of the pair cache ever holds an ["X"] or a ["Z"]: this is
    kept by every refresh and holds throughout every run of the program
    from its initial state, so that the exact key of an alias such as
    ["XBT"] is never present. *)
Theorem loop_cache_keys_clean (w : world) (n : nat) :
  keys_clean (_pairs_by_base_quote (pairs_cache (snd (main_loop w n init_state)))) ∧
  ∀ quote, _pairs_by_base_quote (pairs_cache (snd (main_loop w n init_state)))
             !! ("XBT", quote) = None.
Proof.
  assert (Hclean : keys_clean
            (_pairs_by_base_quote (pairs_cache (snd (main_loop w n init_state))))).
  { destruct (main_loop_full w n init_state) as (res & c & tr & Hrun & Hp & _).
    rewrite Hrun. simpl. destruct Hp as [->|[r Hr]].
    - apply keys_clean_empty.
    - by apply (catalog_mapping_keys_clean r). }
  split; [done|]. intros quote.
  destruct (_ !! ("XBT", quote)) as [p|] eqn:Hl; [|done].
  by destruct (Hclean _ _ _ Hl) as [[HX _] _].
Qed.

(** ** When the catalog is requested *)

(** X15. An empty mapping defeats the refresh interval: whenever the cache
    holds no pair, [refresh_if_needed] sends the catalog request, whatever
    the clock, the time of the last refresh and the configured interval
    are; this includes the call that follows a refresh which loaded a
    catalog without any usable entry. *)
Theorem empty_cache_is_always_refreshed (w : world) (st : state) :
  _pairs_by_base_quote (pairs_cache st) = ∅ →
  fetches (events_of (refresh_if_needed w) st) = [refresh_get w].
Proof.
  intros Hempty.
  destruct (refresh_if_needed_fetches w st) as (res & c & tr & Hrun & _ & Hf & _).
  rewrite (events_of_extends _ _ _ _ _ Hrun), Hf.
  unfold is_fresh, dict_truthy. rewrite Hempty.
  by rewrite bool_decide_eq_true_2, andb_false_r.
Qed.

Lemma empty_cache_is_always_refreshed_witness :
  fetches (events_of (refresh_if_needed down_world) init_state)
  = [refresh_get down_world].
Proof.
  apply (empty_cache_is_always_refreshed down_world init_state). reflexivity.
Defined.

(** ** Malformed ticker replies *)

(** X16. What the fetcher makes of the price field of the entry it picked:
    a missing ["c"] raises [KeyError]; an empty list, or an empty string,
    raises [IndexError]; a list gives [float] of its first element; a
    non-empty string gives [float] of its first character; an object
    raises [KeyError]; any other value, and any entry that is not an
    object, raises [TypeError]. *)
Theorem entry_price_by_shape (w : world) (entry : json) :
  entry_price w entry
  = match entry with
    | JObj fields =>
        match assoc_get "c" fields with
        | None => Raise KeyError
        | Some (JArr []) => Raise IndexError
        | Some (JArr (v :: _)) => py_float w v
        | Some (JStr EmptyString) => Raise IndexError
        | Some (JStr (String ch _)) => py_float w (JStr (String ch EmptyString))
        | Some (JObj _) => Raise KeyError
        | Some _ => Raise TypeError
        end
    | _ => Raise TypeError
    end.
Proof.
  unfold entry_price. unfold_result.
  destruct entry as [| | | | |items|fields]; try reflexivity.
  simpl. destruct (assoc_get "c" fields) as [[| | | |s|l|kvs]|]; try reflexivity.
  - by destruct s.
  - by destruct l.
Qed.

(** X17. An HTTP error status is rejected before the body is looked at:
    for a reply whose status is in 400..599, both the refresh and the price
    fetcher raise [HTTPError] with that status, even when the body is a
    well-formed, error-free answer. *)
Theorem error_status_beats_body (w : world) (r : response) :
  400 ≤ status_code_of r < 600 →
  catalog_mapping r = Raise (HTTPError (status_code_of r)) ∧
  ticker_price w r = Raise (HTTPError (status_code_of r)).
Proof.
  intros [Hlo Hhi].
  unfold catalog_mapping, ticker_price, raise_for_status. unfold_result.
  apply Z.leb_le in Hlo. apply Z.ltb_lt in Hhi. by rewrite Hlo, Hhi.
Qed.

Lemma error_status_beats_body_witness :
  catalog_mapping {| status_code_of := 503; body := body (ticker_body "XXBTZUSD" "50000") |}
  = Raise (HTTPError 503) ∧
  ticker_price demo_world
    {| status_code_of := 503; body := body (ticker_body "XXBTZUSD" "50000") |}
  = Raise (HTTPError 503).
Proof.
  apply (error_status_beats_body demo_world
           {| status_code_of := 503; body := body (ticker_body "XXBTZUSD" "50000") |}).
  simpl. lia.
Defined.

(** ** Completed invocations *)

(** X18. An invocation that returns normally on a sheet with at least one
    non-blank symbol below the header has written exactly once, and the
    batch holds one cell per non-blank row, in row order. *)
Theorem completed_invocation_wrote_once (w : world) (st : state)
    (col : list (option string)) :
  fst (update_sheet_once w st) = Ok tt →
  sheet_reply w st = Ok col →
  nonblank_rows 0 (tail col) ≠ [] →
  ∃ cells,
    filter is_write (events_of (update_sheet_once w) st) = [EvUpdateCells cells] ∧
    map cell_row cells = nonblank_rows 0 (tail col).
Proof.
  intros Hok Hcol Hrows.
  destruct (update_sheet_once_shape w st) as (res & c & tr & Hrun & _ & Hshape).
  rewrite (events_of_extends _ _ _ _ _ Hrun).
  assert (Hlen : (Z.of_nat (length col) <=? 1) = false).
  { apply Z.leb_gt. destruct col as [|h [|x rest]]; simpl in *; try done. lia. }
  rewrite update_sheet_once_run, Hcol, Hlen in Hok, Hrun.
  destruct (sh_worksheet w (trace st) (WORKSHEET_NAME w)) as [e|] eqn:Hws; [done|].
  destruct (refresh_if_needed_spec w (after_read w st)) as (res1 & c1 & tr1 & Hr & Hq1 & _).
  rewrite Hr in Hok, Hrun. destruct res1 as [[]|e]; [|done].
  match type of Hrun with
  | context [stage_rows w 0 (tail col) [] ?s] =>
      destruct (stage_rows_spec w (tail col) 0 [] s)
        as (new & tr2 & Hs & Hq2 & Hnew & _)
  end.
  rewrite Hs in Hok, Hrun. simpl in Hok, Hrun.
  destruct new as [|c0 new]; [by rewrite <- Hnew in Hrows|].
  destruct (ws_update_cells w _ (c0 :: new)) as [e|]; [done|].
  exists (c0 :: new). split; [|done].
  injection Hrun as _ _ Htr. unfold add_events in Htr. simpl in Htr.
  rewrite <- !app_assoc in Htr. apply app_inv_head in Htr as <-. simpl.
  rewrite !filter_cons. simpl. rewrite !filter_app.
  rewrite (quiet_no_write _ Hq1), (quiet_no_write _ Hq2). simpl.
  by rewrite !filter_cons.
Qed.

Lemma completed_invocation_wrote_once_witness :
  ∃ cells,
    filter is_write (events_of (update_sheet_once demo_world) init_state)
    = [EvUpdateCells cells] ∧
    map cell_row cells = nonblank_rows 0 (tail demo_sheet).
Proof.
  apply (completed_invocation_wrote_once demo_world init_state demo_sheet).
  - vm_compute. reflexivity.
  - reflexivity.
  - vm_compute. discriminate.
Defined.
